(** * gandyn: a dynamic DNS updater for Gandi LiveDNS

    A shallow embedding of [main.go] and the properties of its three parts:
    the public address resolver ([publicIPResolver.Resolve]), the record
    client ([liveDNSConfig.Get], [liveDNSConfig.Set]) and the polling
    closure [loop] of [main].

    Conventions.
    - Go strings are byte strings: [string].  A [[]byte] is a [list byte].
    - Go [int]/[uint] values are [Z]; every value that occurs is far below
      the 64-bit range, so no wrap-around is written out except for the
      [byte(n)] conversions of the address parser.
    - The outside world (the [dig] child process and the HTTP provider) is
      an oracle [world]; every call made to it is recorded in a trace.
    - A run-time panic is an explicit outcome. *)

From Stdlib Require Import ZArith String Ascii List Bool Lia.
From Stdlib Require Import Strings.Byte.
Import ListNotations.

Local Open Scope string_scope.
Local Open Scope Z_scope.

(* ------------------------------------------------------------------ *)
(** ** Strings and byte slices *)

Definition code (c : ascii) : Z := Z.of_N (N_of_ascii c).

Definition len (s : string) : Z := Z.of_nat (String.length s).

(** [s[n:]] for [0 <= n <= len s]. *)
Fixpoint drop_nat (n : nat) (s : string) : string :=
  match n, s with
  | O, _ => s
  | S n', String _ s' => drop_nat n' s'
  | S _, EmptyString => EmptyString
  end.

Definition drop (n : Z) (s : string) : string := drop_nat (Z.to_nat n) s.

(** Code of [s[i]]; only used where the source has checked [i < len(s)]. *)
Definition at_ (s : string) (i : Z) : Z :=
  match String.get (Z.to_nat i) s with
  | Some c => code c
  | None => 0
  end.

Definition blen (b : list byte) : Z := Z.of_nat (List.length b).

(** The slice expression [b[lo:hi]]; [None] is the run-time panic
    "slice bounds out of range". *)
Definition slice (b : list byte) (lo hi : Z) : option (list byte) :=
  if (0 <=? lo) && (lo <=? hi) && (hi <=? blen b)
  then Some (firstn (Z.to_nat (hi - lo)) (skipn (Z.to_nat lo) b))
  else None.

(* ------------------------------------------------------------------ *)
(** ** Errors *)

(** How [l.req] can fail: [http.NewRequest] rejects the method or the URL,
    and then no request is sent; or [http.DefaultClient.Do] fails. *)
Inductive http_failure : Type :=
| NewRequestError (descr : string)
| DoError (descr : string).

(** An [error] value, by the package that made it.  Errors of [os/exec],
    [net/http] and [encoding/json] are opaque to the program, which only
    logs them: they carry the library's description of the failure. *)
Inductive error : Type :=
| ExecError (descr : string)
| HTTPError (failure : http_failure)
| JSONError (descr : string)
| errorString (s : string)                (* errors.New(s) *)
| Errorf (format : string) (d : Z).       (* fmt.Errorf(format, d) *)

Definition errors_New (s : string) : error := errorString s.

(* ------------------------------------------------------------------ *)
(** ** Package [net]: [ParseIP] and [IP.To4]

    [Resolve] validates its answer with [net.ParseIP] and [IP.To4] of the Go
    standard library.  They are embedded here function by function, after
    net/ip.go and net/parse.go.  Since Go 1.22 [ParseIP] hands the string
    to net/netip, whose parser reads the same literals except that a group
    of an IPv6 literal has at most four hexadecimal digits; [xtoi] reads a
    group as net/netip does.  An [IP] is a byte slice; [None] is the nil
    IP. *)

Module net.

Definition IP := list Z.

Definition IPv4len : Z := 4.
Definition IPv6len : Z := 16.
Definition big : Z := 0xFFFFFF.

Definition byte_of (n : Z) : Z := n mod 256.

(** [l[i] = v], for [i] in range. *)
Fixpoint upd_nat (i : nat) (v : Z) (l : list Z) : list Z :=
  match l, i with
  | [], _ => []
  | _ :: t, O => v :: t
  | h :: t, S i' => h :: upd_nat i' v t
  end.

Definition upd (i : Z) (v : Z) (l : list Z) : list Z := upd_nat (Z.to_nat i) v l.

Definition idx (l : list Z) (i : Z) : Z := nth (Z.to_nat i) l 0.

Definition is_digit (c : ascii) : bool := (48 <=? code c) && (code c <=? 57).

(** [dtoi]: decimal to integer; number, characters consumed, success. *)
Fixpoint dtoi_from (s : string) (n i : Z) : Z * Z * bool :=
  match s with
  | String c s' =>
      if is_digit c then
        let n := n * 10 + (code c - 48) in
        if n >=? big then (big, i, false) else dtoi_from s' n (i + 1)
      else if i =? 0 then (0, 0, false) else (n, i, true)
  | EmptyString => if i =? 0 then (0, 0, false) else (n, i, true)
  end.

Definition dtoi (s : string) : Z * Z * bool := dtoi_from s 0 0.

Definition xdigit (c : ascii) : option Z :=
  let k := code c in
  if (48 <=? k) && (k <=? 57) then Some (k - 48)
  else if (97 <=? k) && (k <=? 102) then Some (k - 97 + 10)
  else if (65 <=? k) && (k <=? 70) then Some (k - 65 + 10)
  else None.

(** [xtoi]: the hexadecimal group at the head of [s]; number, characters
    consumed, success.  A fifth digit fails ("each group must have 4 or
    less digits"), as does a value above 0xFFFF and a group without a
    digit. *)
Fixpoint xtoi_from (s : string) (n i : Z) : Z * Z * bool :=
  match s with
  | String c s' =>
      match xdigit c with
      | Some d =>
          let n := n * 16 + d in
          if i >? 3 then (0, i, false)
          else if n >? 0xFFFF then (0, i, false)
          else xtoi_from s' n (i + 1)
      | None => if i =? 0 then (0, i, false) else (n, i, true)
      end
  | EmptyString => if i =? 0 then (0, i, false) else (n, i, true)
  end.

Definition xtoi (s : string) : Z * Z * bool := xtoi_from s 0 0.

Definition v4InV6Prefix : IP := [0; 0; 0; 0; 0; 0; 0; 0; 0; 0; 0xff; 0xff].

(** [IPv4(a, b, c, d)]: the 16-byte form of a.b.c.d. *)
Definition IPv4 (a b c d : Z) : IP := (v4InV6Prefix ++ [a; b; c; d])%list.

(** The loop of [parseIPv4]; [k] iterations remain, [i = IPv4len - k]. *)
Fixpoint parseIPv4_loop (k : nat) (s : string) (p : list Z) : option (list Z * string) :=
  match k with
  | O => Some (p, s)
  | S k' =>
      let i := IPv4len - Z.of_nat k in
      if len s =? 0 then None                       (* missing octets *)
      else
        match (if 0 <? i
               then if at_ s 0 =? 46 then Some (drop 1 s) else None
               else Some s) with
        | None => None
        | Some s =>
            let '(n, c, ok) := dtoi s in
            if negb ok || (n >? 0xFF) then None
            else if (c >? 1) && (at_ s 0 =? 48) then None   (* leading zero *)
            else parseIPv4_loop k' (drop c s) (upd i (byte_of n) p)
        end
  end.

Definition parseIPv4 (s : string) : option IP :=
  match parseIPv4_loop 4 s [0; 0; 0; 0] with
  | None => None
  | Some (p, s) =>
      if negb (len s =? 0) then None
      else Some (IPv4 (idx p 0) (idx p 1) (idx p 2) (idx p 3))
  end.

(** The main loop of [parseIPv6], "parsing hex numbers followed by colon".
    [k] sixteen-bit groups are still free, so [i = IPv6len - 2k] and the
    loop condition [i < IPv6len] is [k > 0].  The result is the state at
    the loop's exit, [None] where the source returns nil. *)
Fixpoint parseIPv6_loop (k : nat) (s : string) (ip : IP) (ellipsis : Z)
  : option (Z * string * IP * Z) :=
  match k with
  | O => Some (IPv6len, s, ip, ellipsis)
  | S k' =>
      let i := IPv6len - 2 * Z.of_nat k in
      let '(n, c, ok) := xtoi s in
      if negb ok || (n >? 0xFFFF) then None
      else if (c <? len s) && (at_ s c =? 46) then
        (* followed by a dot: trailing IPv4 *)
        if (ellipsis <? 0) && negb (i =? IPv6len - IPv4len) then None
        else if i + IPv4len >? IPv6len then None
        else
          match parseIPv4 s with
          | None => None
          | Some ip4 =>
              let ip := upd i (idx ip4 12) ip in
              let ip := upd (i + 1) (idx ip4 13) ip in
              let ip := upd (i + 2) (idx ip4 14) ip in
              let ip := upd (i + 3) (idx ip4 15) ip in
              Some (i + IPv4len, EmptyString, ip, ellipsis)
          end
      else
        let ip := upd i (byte_of (Z.shiftr n 8)) ip in
        let ip := upd (i + 1) (byte_of n) ip in
        let i := i + 2 in
        let s := drop c s in
        if len s =? 0 then Some (i, s, ip, ellipsis)
        else if negb (at_ s 0 =? 58) || (len s =? 1) then None
        else
          let s := drop 1 s in
          if at_ s 0 =? 58 then
            if ellipsis >=? 0 then None
            else
              let ellipsis := i in
              let s := drop 1 s in
              if len s =? 0 then Some (i, s, ip, ellipsis)
              else parseIPv6_loop k' s ip ellipsis
          else parseIPv6_loop k' s ip ellipsis
  end.

(** [for j := i - 1; j >= ellipsis; j-- { ip[j+n] = ip[j] }], [cnt] steps. *)
Fixpoint shift_loop (cnt : nat) (j n : Z) (ip : IP) : IP :=
  match cnt with
  | O => ip
  | S cnt' => shift_loop cnt' (j - 1) n (upd (j + n) (idx ip j) ip)
  end.

(** [for j := ellipsis + n - 1; j >= ellipsis; j-- { ip[j] = 0 }]. *)
Fixpoint zero_loop (cnt : nat) (j : Z) (ip : IP) : IP :=
  match cnt with
  | O => ip
  | S cnt' => zero_loop cnt' (j - 1) (upd j 0 ip)
  end.

Definition parseIPv6 (s : string) : option IP :=
  let ip := repeat 0 16 in
  let lead := (len s >=? 2) && (at_ s 0 =? 58) && (at_ s 1 =? 58) in
  if lead && (len (drop 2 s) =? 0) then Some ip      (* only ellipsis *)
  else
    let '(ellipsis, s) := if lead then (0, drop 2 s) else (-1, s) in
    match parseIPv6_loop 8 s ip ellipsis with
    | None => None
    | Some (i, s, ip, ellipsis) =>
        if negb (len s =? 0) then None
        else if i <? IPv6len then
          if ellipsis <? 0 then None
          else
            let n := IPv6len - i in
            let ip := shift_loop (Z.to_nat (i - ellipsis)) (i - 1) n ip in
            let ip := zero_loop (Z.to_nat n) (ellipsis + n - 1) ip in
            Some ip
        else if ellipsis >=? 0 then None
        else Some ip
    end.

(** [ParseIP]: the first '.' or ':' of [s] decides the parser. *)
Fixpoint ParseIP_scan (rest whole : string) : option IP :=
  match rest with
  | EmptyString => None
  | String c r =>
      if code c =? 46 then parseIPv4 whole
      else if code c =? 58 then parseIPv6 whole
      else ParseIP_scan r whole
  end.

Definition ParseIP (s : string) : option IP := ParseIP_scan s s.

Definition isZeros (p : IP) : bool := forallb (fun b => b =? 0) p.

(** [ip.To4()]: the 4-byte form of an IPv4 address, nil otherwise. *)
Definition To4 (ip : IP) : option IP :=
  if Z.of_nat (List.length ip) =? IPv4len then Some ip
  else if (Z.of_nat (List.length ip) =? IPv6len)
          && isZeros (firstn 10 ip)
          && (idx ip 10 =? 0xff)
          && (idx ip 11 =? 0xff)
       then Some (firstn 4 (skipn 12 ip))
       else None.

End net.

(* ------------------------------------------------------------------ *)
(** ** JSON documents and the record shape *)

#[local] Set Warnings "-register-all".

Inductive json : Type :=
| JNumber (n : Z)
| JString (s : string)
| JArray (l : list json)
| JObject (fields : list (string * json)).

(** [liveDNSRecord].  [Values] is a slice: [None] is nil. *)
Record liveDNSRecord : Type := {
  Kind : string;                    (* json:"rrset_type,omitempty" *)
  Name : string;                    (* json:"rrset_name,omitempty" *)
  TTL : Z;                          (* json:"rrset_ttl,omitempty" *)
  Values : option (list string)     (* json:"rrset_values,omitempty" *)
}.

(** The zero value [liveDNSRecord{}]. *)
Definition zero_record : liveDNSRecord :=
  {| Kind := ""; Name := ""; TTL := 0; Values := None |}.

Definition slice_len {A} (s : option (list A)) : Z :=
  match s with
  | None => 0
  | Some l => Z.of_nat (List.length l)
  end.

(** Package [unicode/utf8], as far as the JSON encoder uses it. *)
Module utf8.

(** The three bytes of U+FFFD. *)
Definition RuneError : string :=
  String (ascii_of_nat 239) (String (ascii_of_nat 191)
    (String (ascii_of_nat 189) EmptyString)).

(** The tables [first] and [acceptRanges]: for a byte from 0x80 up that can
    lead a sequence, how many bytes must follow it and the range of the
    first of them; [None] for a byte that cannot lead. *)
Definition lead (b : Z) : option (nat * Z * Z) :=
  if (0xC2 <=? b) && (b <=? 0xDF) then Some (1%nat, 0x80, 0xBF)
  else if b =? 0xE0 then Some (2%nat, 0xA0, 0xBF)
  else if ((0xE1 <=? b) && (b <=? 0xEC)) || (b =? 0xEE) || (b =? 0xEF)
       then Some (2%nat, 0x80, 0xBF)
  else if b =? 0xED then Some (2%nat, 0x80, 0x9F)
  else if b =? 0xF0 then Some (3%nat, 0x90, 0xBF)
  else if (0xF1 <=? b) && (b <=? 0xF3) then Some (3%nat, 0x80, 0xBF)
  else if b =? 0xF4 then Some (3%nat, 0x80, 0x8F)
  else None.

(** Whether [s] starts with [n] continuation bytes, the first of them in
    [lo..hi] and the others in 0x80..0xBF. *)
Fixpoint continues (n : nat) (lo hi : Z) (s : string) : bool :=
  match n with
  | O => true
  | S n' =>
      match s with
      | EmptyString => false
      | String c r =>
          (lo <=? code c) && (code c <=? hi) && continues n' 0x80 0xBF r
      end
  end.

(** [DecodeRuneInString] at the head of [String c r]: [Some n] when a rune
    is encoded there with [n] bytes after [c]; [None] when it returns
    [RuneError] with size 1. *)
Definition decode (c : ascii) (r : string) : option nat :=
  if code c <? 0x80 then Some O
  else
    match lead (code c) with
    | Some (n, lo, hi) => if continues n lo hi r then Some n else None
    | None => None
    end.

(** [ValidString]; [k] bytes of a sequence already accepted are still to
    be passed over. *)
Fixpoint valid_from (s : string) (k : nat) : bool :=
  match s with
  | EmptyString => true
  | String c r =>
      match k with
      | S k' => valid_from r k'
      | O =>
          match decode c r with
          | Some n => valid_from r n
          | None => false
          end
      end
  end.

Definition ValidString (s : string) : bool := valid_from s 0.

End utf8.

(** The string a JSON document written by [encoding/json] holds for the Go
    string [s]: the encoder copies every rune that is encoded in [s] and
    writes U+FFFD for each byte that is not part of one; all its escapes
    read back as the characters they stand for.  [k] bytes of a sequence
    already accepted are still to be copied. *)
Fixpoint json_string_from (s : string) (k : nat) : string :=
  match s with
  | EmptyString => EmptyString
  | String c r =>
      match k with
      | S k' => String c (json_string_from r k')
      | O =>
          match utf8.decode c r with
          | Some n => String c (json_string_from r n)
          | None => (utf8.RuneError ++ json_string_from r 0)%string
          end
      end
  end.

Definition json_string (s : string) : string := json_string_from s 0.

(** [json.Marshal] of a [liveDNSRecord]: fields in declaration order, each
    left out when empty ([omitempty]: "", 0, a slice of length 0). *)
Definition Marshal (r : liveDNSRecord) : json :=
  JObject
    ((if String.eqb (Kind r) "" then []
      else [("rrset_type", JString (json_string (Kind r)))]) ++
     (if String.eqb (Name r) "" then []
      else [("rrset_name", JString (json_string (Name r)))]) ++
     (if TTL r =? 0 then [] else [("rrset_ttl", JNumber (TTL r))]) ++
     (match Values r with
      | None | Some [] => []
      | Some l =>
          [("rrset_values", JArray (map (fun v => JString (json_string v)) l))]
      end))%list.

(** [json.NewEncoder(body).Encode(&r)]: what is written to [body], and the
    error.  Encoding a struct of strings and an unsigned integer has no
    failing case. *)
Definition Encode (r : liveDNSRecord) : json * option error := (Marshal r, None).

(* ------------------------------------------------------------------ *)
(** ** The outside world *)

Record request : Type := {
  Method : string;
  URL : string;
  Header : list (string * string);
  ReqBody : option json            (* the [io.Reader]; [None] is nil *)
}.

(** A response body, by what [json.NewDecoder(res.Body).Decode(record)]
    makes of it for a fresh record. *)
Inductive body : Type :=
| Undecodable (descr : string)
| Document (r : liveDNSRecord).

Record response : Type := {
  StatusCode : Z;
  Body : body
}.

Definition Decode (b : body) : liveDNSRecord * option error :=
  match b with
  | Undecodable d => (zero_record, Some (JSONError d))
  | Document r => (r, None)
  end.

(** What the environment answers during one tick.
    - [Output name args] is [exec.Command(name, args...).Output()]: the
      bytes of standard output and, on failure, what [os/exec] reports.
    - [Do r] is what [l.req] gets for the request [r] it builds: the
      error of [http.NewRequest], in which case nothing is sent, or else
      what [http.DefaultClient.Do] returns, a response or its error. *)
Record world : Type := {
  Output : string -> list string -> list byte * option string;
  Do : request -> response + http_failure
}.

Inductive logarg : Type :=
| LStr (s : string)
| LErr (e : error).

Inductive event : Type :=
| Exec (name : string) (args : list string)   (* a child process was run *)
| Req (r : request)                           (* [l.req] sent [r] *)
| Println (args : list logarg)                (* log.Println(args...) *)
| Print (args : list logarg).                 (* log.Print(args...) *)

Definition trace := list event.

(* ------------------------------------------------------------------ *)
(** ** Computations: an oracle, a trace, and panics *)

Inductive outcome (A : Type) : Type :=
| Panic (msg : string)
| Returns (a : A).
Arguments Panic {A} msg.
Arguments Returns {A} a.

Definition M (A : Type) : Type := world -> outcome A * trace.

Definition ret {A} (a : A) : M A := fun _ => (Returns a, []).

Definition bind {A B} (m : M A) (f : A -> M B) : M B :=
  fun w =>
    match m w with
    | (Panic msg, t) => (Panic msg, t)
    | (Returns a, t) => let (r, t') := f a w in (r, (t ++ t')%list)
    end.

Definition emit (e : event) : M unit := fun _ => (Returns tt, [e]).

Definition panic {A} (msg : string) : M A := fun _ => (Panic msg, []).

Definition exec_Output (name : string) (args : list string)
  : M (list byte * option error) :=
  fun w =>
    let (out, failure) := Output w name args in
    (Returns (out, option_map ExecError failure), [Exec name args]).

Definition log_Println (args : list logarg) : M unit := emit (Println args).
Definition log_Print (args : list logarg) : M unit := emit (Print args).

Declare Scope go_scope.
Delimit Scope go_scope with go.
Notation "x <- m ;; k" := (bind m (fun x => k))
  (at level 61, m at next level, right associativity) : go_scope.
Notation "' p <- m ;; k" := (bind m (fun x => match x with p => k end))
  (at level 61, p pattern, m at next level, right associativity) : go_scope.
Notation "m ;;; k" := (bind m (fun _ => k))
  (at level 61, right associativity) : go_scope.
Local Open Scope go_scope.

(* ------------------------------------------------------------------ *)
(** ** [publicIPResolver] *)

Record publicIPResolver : Type := {
  Hostname : string;
  Server : string
}.

Definition is_nil {A} (o : option A) : bool :=
  match o with None => true | Some _ => false end.

(** [Resolve] gets the current public IP. *)
Definition Resolve (p : publicIPResolver) : M (string * option error) :=
  '(output, err) <- exec_Output "dig"
      ["+time=1"; "+short"; Hostname p; ("@" ++ Server p)%string] ;;
  match err with
  | Some e => ret ("", Some e)
  | None =>
      if blen output =? 0 then
        ret ("", Some (errors_New "no ipv4 valid address"))
      else
        match slice output 0 (blen output - 1) with
        | None => panic "slice bounds out of range"
        | Some b =>
            let stringIP := string_of_list_byte b in
            let ip := net.ParseIP stringIP in
            if match ip with
               | None => true
               | Some ip => is_nil (net.To4 ip)
               end
            then ret ("", Some (errors_New "no ipv4 valid address"))
            else ret (stringIP, None)
        end
  end.

(* ------------------------------------------------------------------ *)
(** ** [liveDNSConfig] *)

Record liveDNSConfig : Type := {
  Key : string;
  Zone : string;
  Record_ : string
}.

Definition baseURL : string := "https://dns.api.gandi.net/api/v5/zones".

Definition StatusCreated : Z := 201.

(** [l.req(method, body)]:
    [fmt.Sprintf("%s/%s/records/%s/A", baseURL, l.Zone, l.Record)], the three
    headers, and the round trip.  When [http.NewRequest] fails, [l.req]
    returns its error and nothing is sent. *)
Definition mkreq (l : liveDNSConfig) (method : string) (b : option json) : request :=
  {| Method := method;
     URL := (baseURL ++ "/" ++ Zone l ++ "/records/" ++ Record_ l ++ "/A")%string;
     Header := [("X-Api-Key", Key l);
                ("Content-Type", "application/json");
                ("Accept", "application/json")];
     ReqBody := b |}.

Definition req (l : liveDNSConfig) (method : string) (b : option json)
  : M (response + error) :=
  fun w =>
    match Do w (mkreq l method b) with
    | inr (NewRequestError d) => (Returns (inr (HTTPError (NewRequestError d))), [])
    | inr (DoError d) =>
        (Returns (inr (HTTPError (DoError d))), [Req (mkreq l method b)])
    | inl res => (Returns (inl res), [Req (mkreq l method b)])
    end.

(** [Get] gets the current value of the record. *)
Definition Get (l : liveDNSConfig) : M (string * option error) :=
  r <- req l "GET" None ;;
  match r with
  | inr e => ret ("", Some e)
  | inl res =>
      let '(record, err) := Decode (Body res) in
      match err with
      | Some e => ret ("", Some e)
      | None =>
          if is_nil (Values record)
             || (slice_len (Values record) =? 0)
             || match Values record with
                | Some (v :: _) => String.eqb v ""
                | _ => true
                end
          then ret ("", Some (errors_New "Invalid Record Response"))
          else
            match Values record with
            | Some (v :: _) => ret (v, None)
            | _ => panic "index out of range"
            end
      end
  end.

(** [Set] sets the value of the record. *)
Definition Set_ (l : liveDNSConfig) (ip : string) : M (option error) :=
  let '(b, err) := Encode {| Kind := ""; Name := ""; TTL := 300; Values := Some [ip] |} in
  match err with
  | Some e => ret (Some e)
  | None =>
      r <- req l "PUT" (Some b) ;;
      match r with
      | inr e => ret (Some e)
      | inl res =>
          (* we should get a created code *)
          if negb (StatusCode res =? StatusCreated)
          then ret (Some (Errorf "Unexpected Response Status Code [%d]" (StatusCode res)))
          else ret None
      end
  end.

(* ------------------------------------------------------------------ *)
(** ** [main]: the polling closure and the endless loop *)

(** The variables the closure [loop] captures. *)
Record LoopState : Type := {
  registeredIP : string;
  currentIP : string;
  err : option error
}.

(** [var registeredIP, currentIP string; var err error]. *)
Definition initial : LoopState :=
  {| registeredIP := ""; currentIP := ""; err := None |}.

Definition loop (dyndns : liveDNSConfig) (publicip : publicIPResolver)
    (st : LoopState) : M LoopState :=
  (* Get the current public address *)
  '(ip, e) <- Resolve publicip ;;
  let st := {| registeredIP := registeredIP st; currentIP := ip; err := e |} in
  match err st with
  | Some e =>
      log_Println [LStr "Error: failed to get pulic IP:"; LErr e] ;;;
      ret st
  | None =>
      if String.eqb (registeredIP st) "" then
        '(r, e) <- Get dyndns ;;
        let st := {| registeredIP := r; currentIP := currentIP st; err := e |} in
        match err st with
        | Some e =>
            log_Println [LStr "Error: failed to to get current dyndns record:"; LErr e] ;;;
            ret st
        | None =>
            if negb (String.eqb (registeredIP st) (currentIP st)) then
              e <- Set_ dyndns (currentIP st) ;;
              let st := {| registeredIP := registeredIP st;
                           currentIP := currentIP st; err := e |} in
              match err st with
              | Some e =>
                  log_Println [LStr "Error: updating DNS record:"; LErr e] ;;;
                  ret st
              | None =>
                  log_Print [LStr "Info: updated Gandi records with IP:";
                             LStr (currentIP st)] ;;;
                  ret st
              end
            else ret st
        end
      else ret st
  end.

(** [for { loop(); time.Sleep(refresh) }], for as many ticks as there are
    worlds: the n-th tick is answered by the n-th world. *)
Fixpoint run (dyndns : liveDNSConfig) (publicip : publicIPResolver)
    (ws : list world) (st : LoopState) : outcome LoopState * trace :=
  match ws with
  | [] => (Returns st, [])
  | w :: ws' =>
      match loop dyndns publicip st w with
      | (Panic msg, t) => (Panic msg, t)
      | (Returns st', t) =>
          let (r, t') := run dyndns publicip ws' st' in (r, (t ++ t')%list)
      end
  end.

(** Calls in a trace. *)
Definition is_Get_call (e : event) : bool :=
  match e with
  | Req r => String.eqb (Method r) "GET"
  | _ => false
  end.

Definition is_Set_call (e : event) : bool :=
  match e with
  | Req r => String.eqb (Method r) "PUT"
  | _ => false
  end.

Definition Get_calls (t : trace) : list event := filter is_Get_call t.
Definition Set_calls (t : trace) : list event := filter is_Set_call t.

(* ------------------------------------------------------------------ *)
(** ** Dotted quads

    The address literals of the specification: four decimal octets, each
    in 0..255 and written without leading zeros, joined by dots. *)

Definition octet (n : Z) : Prop := 0 <= n <= 255.

Definition digit (n : Z) : ascii := ascii_of_N (Z.to_N (48 + n)).

Definition decimal (n : Z) : string :=
  if n <? 10 then String (digit n) ""
  else if n <? 100 then String (digit (n / 10)) (String (digit (n mod 10)) "")
  else String (digit (n / 100))
         (String (digit (n / 10 mod 10)) (String (digit (n mod 10)) "")).

Definition dotted (a b c d : Z) : string :=
  (decimal a ++ "." ++ decimal b ++ "." ++ decimal c ++ "." ++ decimal d)%string.

(** The test [ip == nil || ip.To4() == nil] of [Resolve], negated. *)
Definition accepts (s : string) : bool :=
  match net.ParseIP s with
  | None => false
  | Some ip => negb (is_nil (net.To4 ip))
  end.

Definition no_ipv4 : error := errors_New "no ipv4 valid address".

Definition dig_args (p : publicIPResolver) : list string :=
  ["+time=1"; "+short"; Hostname p; ("@" ++ Server p)%string].

(** The record [Set] encodes for an address. *)
Definition payload (ip : string) : json :=
  Marshal {| Kind := ""; Name := ""; TTL := 300; Values := Some [ip] |}.

(* ------------------------------------------------------------------ *)
(** ** Numerals, as the parser reads them *)

(** The digits of [ds] read on from [n], and whether [dtoi] reads through
    all of them without reaching [net.big]. *)
Fixpoint value (ds : string) (n : Z) : Z :=
  match ds with
  | EmptyString => n
  | String c r => value r (n * 10 + (code c - 48))
  end.

Fixpoint digits_ok (ds : string) (n : Z) : bool :=
  match ds with
  | EmptyString => true
  | String c r =>
      net.is_digit c && (n * 10 + (code c - 48) <? net.big)
      && digits_ok r (n * 10 + (code c - 48))
  end.

Definition stops (rest : string) : Prop :=
  rest = EmptyString \/ exists r, rest = String "." r.

(** Everything the parser asks of one octet's numeral. *)
Definition octet_ok (n : Z) : bool :=
  digits_ok (decimal n) 0
  && (value (decimal n) 0 =? n)
  && (1 <=? len (decimal n))
  && negb ((len (decimal n) >? 1) && (at_ (decimal n) 0 =? 48))
  && (net.byte_of n =? n).

(* ------------------------------------------------------------------ *)
(** ** What each call answers, by the world's reply *)

Definition Resolve_answer (reply : list byte * option string) : string * option error :=
  let (output, failure) := reply in
  match failure with
  | Some failure => ("", Some (ExecError failure))
  | None =>
      match output with
      | [] => ("", Some no_ipv4)
      | _ :: _ =>
          let s := string_of_list_byte (removelast output) in
          if accepts s then (s, None) else ("", Some no_ipv4)
      end
  end.

Definition Get_answer (reply : response + http_failure) : string * option error :=
  match reply with
  | inr failure => ("", Some (HTTPError failure))
  | inl res =>
      match Body res with
      | Undecodable d => ("", Some (JSONError d))
      | Document r =>
          match Values r with
          | Some (v :: _) =>
              if String.eqb v "" then ("", Some (errors_New "Invalid Record Response"))
              else (v, None)
          | _ => ("", Some (errors_New "Invalid Record Response"))
          end
      end
  end.

Definition Set_answer (reply : response + http_failure) : option error :=
  match reply with
  | inr failure => Some (HTTPError failure)
  | inl res =>
      if StatusCode res =? StatusCreated then None
      else Some (Errorf "Unexpected Response Status Code [%d]" (StatusCode res))
  end.

(** What a call of [l.req] leaves in the trace, by the world's reply. *)
Definition req_trace (reply : response + http_failure) (r : request) : trace :=
  match reply with
  | inr (NewRequestError _) => []
  | _ => [Req r]
  end.

Definition resolve_event (publicip : publicIPResolver) : event :=
  Exec "dig" (dig_args publicip).
Definition get_event (dyndns : liveDNSConfig) : event :=
  Req (mkreq dyndns "GET" None).
Definition set_event (dyndns : liveDNSConfig) (ip : string) : event :=
  Req (mkreq dyndns "PUT" (Some (payload ip))).


(** The answers of the three calls of one tick in the world [w]. *)
Definition resolved (publicip : publicIPResolver) (w : world) : string * option error :=
  Resolve_answer (Output w "dig" (dig_args publicip)).

Definition fetched (dyndns : liveDNSConfig) (w : world) : string * option error :=
  Get_answer (Do w (mkreq dyndns "GET" None)).

Definition written (dyndns : liveDNSConfig) (w : world) (ip : string) : option error :=
  Set_answer (Do w (mkreq dyndns "PUT" (Some (payload ip)))).

(** What the calls of [Get] and [Set] leave in the trace. *)
Definition Get_trace (dyndns : liveDNSConfig) (w : world) : trace :=
  req_trace (Do w (mkreq dyndns "GET" None)) (mkreq dyndns "GET" None).

Definition Set_trace (dyndns : liveDNSConfig) (w : world) (ip : string) : trace :=
  req_trace (Do w (mkreq dyndns "PUT" (Some (payload ip))))
            (mkreq dyndns "PUT" (Some (payload ip))).

(** The five paths through one tick. *)
Inductive tick_path (dyndns : liveDNSConfig) (publicip : publicIPResolver)
    (w : world) (st : LoopState) : Prop :=
| ResolveFails (e : error) (_ : snd (resolved publicip w) = Some e)
| Cached (cur : string) (_ : resolved publicip w = (cur, None))
    (_ : registeredIP st <> "")
| GetFails (cur : string) (e : error) (_ : resolved publicip w = (cur, None))
    (_ : registeredIP st = "") (_ : snd (fetched dyndns w) = Some e)
| GetSame (cur : string) (_ : resolved publicip w = (cur, None))
    (_ : registeredIP st = "") (_ : fetched dyndns w = (cur, None))
| GetDiffers (cur r : string) (_ : resolved publicip w = (cur, None))
    (_ : registeredIP st = "") (_ : fetched dyndns w = (r, None)) (_ : r <> cur).

(* ------------------------------------------------------------------ *)
(** ** Sample configuration and worlds *)

Module Sample.

Definition dyndns : liveDNSConfig :=
  {| Key := "secret"; Zone := "zone-uuid"; Record_ := "www" |}.

Definition publicip : publicIPResolver :=
  {| Hostname := "myip.opendns.com"; Server := "resolver1.opendns.com" |}.

(** What [dig +short] prints for an answer: the answer and a newline. *)
Definition line (s : string) : list byte :=
  (list_byte_of_string s ++ ["010"%byte])%list.

Definition a_record (vals : option (list string)) : body :=
  Document {| Kind := "A"; Name := "www"; TTL := 300; Values := vals |}.

(** A provider that answers reads with [get] and writes with [put]. *)
Definition provider (get put : response + http_failure) (r : request)
  : response + http_failure :=
  if String.eqb (Method r) "GET" then get else put.

Definition holds (code : Z) (ip : string) : response + http_failure :=
  inl {| StatusCode := code; Body := a_record (Some [ip]) |}.

Definition replies (code : Z) : response + http_failure :=
  inl {| StatusCode := code; Body := Undecodable "EOF" |}.

(** [dig] prints [s]; the provider holds [held] and answers writes with
    status [put]. *)
Definition world_of (s held : string) (put : Z) : world :=
  {| Output := fun _ _ => (line s, None);
     Do := provider (holds 200 held) (replies put) |}.

(** [dig] fails. *)
Definition dig_down : world :=
  {| Output := fun _ _ => ([], Some "exit status 9");
     Do := provider (holds 200 "1.2.3.4") (replies 201) |}.

(** [dig] prints nothing at all. *)
Definition dig_silent : world :=
  {| Output := fun _ _ => ([], None);
     Do := provider (holds 200 "1.2.3.4") (replies 201) |}.

(** The provider answers reads with status 500 and a record all the same. *)
Definition failing_provider : world :=
  {| Output := fun _ _ => (line "1.2.3.4", None);
     Do := provider (holds 500 "1.2.3.4") (replies 201) |}.

(** [dig] prints 1.2.3.5; the provider's record has an empty value list. *)
Definition empty_record : world :=
  {| Output := fun _ _ => (line "1.2.3.5", None);
     Do := provider (inl {| StatusCode := 200; Body := a_record (Some []) |})
                    (replies 201) |}.

Definition cached (reg cur : string) : LoopState :=
  {| registeredIP := reg; currentIP := cur; err := None |}.

End Sample.

(* ------------------------------------------------------------------ *)
(** ** [init] and [main]: flags, start-up check and the endless loop *)

(** A [time.Duration] is a number of nanoseconds. *)
Definition Second : Z := 1000000000.
Definition Minute : Z := 60 * Second.

(** The package variables the flags are parsed into. *)
Record flags : Type := {
  apiKey : string;
  zoneID : string;
  recordName : string;
  refresh : Z;
  resolver : string;
  hostname : string
}.

(** The values [init] registers: what the variables hold after
    [flag.Parse()] when the command line gives no flag. *)
Definition flag_defaults : flags :=
  {| apiKey := ""; zoneID := ""; recordName := "";
     refresh := 5 * Minute;
     resolver := "resolver1.opendns.com";
     hostname := "myip.opendns.com" |}.

(** The default flags with key, zone and record filled in. *)
Definition given_flags : flags :=
  {| apiKey := "secret"; zoneID := "zone-uuid"; recordName := "www";
     refresh := 5 * Minute; resolver := "resolver1.opendns.com";
     hostname := "myip.opendns.com" |}.

(** What [main] does, seen from outside: the events of the ticks, and
    around them the usage message and the sleeps. *)
Inductive main_event : Type :=
| Stdout (line : string)          (* fmt.Println(line) *)
| PrintDefaults                   (* flag.PrintDefaults() *)
| InTick (e : event)              (* an event of [loop()] *)
| Sleep (d : Z).                  (* time.Sleep(d) *)

(** Where the process stands after the ticks observed. *)
Inductive status : Type :=
| Exited (code : Z)               (* os.Exit(code) *)
| Panicked (msg : string)
| Looping (st : LoopState).       (* still inside [for { ... }] *)

(** [for { loop(); time.Sleep(refresh) }], one iteration per world. *)
Fixpoint main_for (dyndns : liveDNSConfig) (publicip : publicIPResolver)
    (d : Z) (ws : list world) (st : LoopState) : status * list main_event :=
  match ws with
  | [] => (Looping st, [])
  | w :: ws' =>
      match loop dyndns publicip st w with
      | (Panic msg, t) => (Panicked msg, map InTick t)
      | (Returns st', t) =>
          let (r, t') := main_for dyndns publicip d ws' st' in
          (r, (map InTick t ++ Sleep d :: t')%list)
      end
  end.

(** [main], with the variables as [flag.Parse()] left them. *)
Definition main (f : flags) (ws : list world) : status * list main_event :=
  if String.eqb (apiKey f) "" || String.eqb (recordName f) ""
     || String.eqb (zoneID f) ""
  then (Exited 2, [Stdout "Missing one or more command line options."; PrintDefaults])
  else
    let dyndns := {| Key := apiKey f; Zone := zoneID f; Record_ := recordName f |} in
    let publicip := {| Hostname := hostname f; Server := resolver f |} in
    main_for dyndns publicip (refresh f) ws initial.

(** The traces of the ticks of a run, tick by tick. *)
Fixpoint tick_traces (dyndns : liveDNSConfig) (publicip : publicIPResolver)
    (ws : list world) (st : LoopState) : list trace :=
  match ws with
  | [] => []
  | w :: ws' =>
      match loop dyndns publicip st w with
      | (Panic _, t) => [t]
      | (Returns st', t) => t :: tick_traces dyndns publicip ws' st'
      end
  end.

(** The events of the ticks in a trace of [main], and its sleeps. *)
Fixpoint tick_events (t : list main_event) : trace :=
  match t with
  | [] => []
  | InTick e :: t' => e :: tick_events t'
  | _ :: t' => tick_events t'
  end.

Fixpoint sleeps (t : list main_event) : list Z :=
  match t with
  | [] => []
  | Sleep d :: t' => d :: sleeps t'
  | _ :: t' => sleeps t'
  end.

(* ------------------------------------------------------------------ *)
(** ** Kinds of events and of characters *)

Definition is_Exec (e : event) : bool :=
  match e with Exec _ _ => true | _ => false end.

Definition is_log (e : event) : bool :=
  match e with Println _ | Print _ => true | _ => false end.

Definition is_ascii (c : ascii) : bool := code c <? 128.

(** The characters of address literals: hexadecimal digits, '.' and ':'. *)
Definition ip_char (c : ascii) : bool :=
  match net.xdigit c with
  | Some _ => true
  | None => (code c =? 46) || (code c =? 58)
  end.

Fixpoint all_chars (f : ascii -> bool) (s : string) : bool :=
  match s with
  | EmptyString => true
  | String c r => f c && all_chars f r
  end.

Definition in_byte_range (b : Z) : Prop := 0 <= b <= 255.

(** An address of [n] bytes. *)
Definition wf (n : nat) (ip : net.IP) : Prop :=
  List.length ip = n /\ Forall in_byte_range ip.

Definition not_colon (c : ascii) : bool := negb (code c =? 58).

(** The numeral with the decimal digits [ds]. *)
Fixpoint numeral (ds : list Z) : string :=
  match ds with
  | [] => EmptyString
  | d :: r => String (digit d) (numeral r)
  end.

(** A numeral the parser takes for an octet is that octet's numeral. *)
Definition numeral_ok (ds : list Z) : bool :=
  let pre := numeral ds in
  implb ((value pre 0 <=? 255) && negb ((len pre >? 1) && (at_ pre 0 =? 48)))
        (String.eqb pre (decimal (value pre 0)) && (0 <=? value pre 0)).

Definition digits10 : list Z := map Z.of_nat (seq 0 10).

(** The requests of a tick: the read of the configured record, or the
    write of an address that [Resolve] has accepted. *)
Definition request_ok (dyndns : liveDNSConfig) (e : event) : Prop :=
  match e with
  | Req r =>
      r = mkreq dyndns "GET" None
      \/ exists ip, accepts ip = true /\ r = mkreq dyndns "PUT" (Some (payload ip))
  | _ => True
  end.

(* ------------------------------------------------------------------ *)
(** ** Lemmas on strings *)

Lemma len_nonneg (s : string) : 0 <= len s.
Proof. unfold len. lia. Qed.

Lemma len_String (c : ascii) (s : string) : len (String c s) = 1 + len s.
Proof. unfold len. simpl String.length. lia. Qed.

Lemma drop_nat_app (s rest : string) :
  drop_nat (String.length s) (s ++ rest)%string = rest.
Proof. induction s as [|c s IH]; simpl; auto. Qed.

Lemma drop_len_app (s rest : string) : drop (len s) (s ++ rest)%string = rest.
Proof. unfold drop, len. rewrite Nat2Z.id. apply drop_nat_app. Qed.

Lemma at_0_String (c : ascii) (s : string) : at_ (String c s) 0 = code c.
Proof. reflexivity. Qed.

Lemma slice_all_but_last (b : list byte) :
  blen b <> 0 -> slice b 0 (blen b - 1) = Some (removelast b).
Proof.
  intros Hne. unfold slice, blen in *.
  assert (Hpos : 0 < Z.of_nat (List.length b)) by lia.
  replace ((0 <=? 0) && (0 <=? Z.of_nat (List.length b) - 1)
           && (Z.of_nat (List.length b) - 1 <=? Z.of_nat (List.length b)))
    with true.
  - simpl skipn. rewrite removelast_firstn_len. do 2 f_equal. lia.
  - symmetry. rewrite !andb_true_iff, !Z.leb_le. lia.
Qed.

Lemma bytes_roundtrip (s : string) :
  string_of_list_byte (removelast (list_byte_of_string s ++ ["010"%byte])) = s.
Proof. rewrite removelast_last. apply string_of_list_byte_of_string. Qed.

(* ------------------------------------------------------------------ *)
(** ** Lemmas on JSON strings *)

(** Valid UTF-8 is written as it is. *)
Lemma json_string_from_valid (s : string) :
  forall k, utf8.valid_from s k = true -> json_string_from s k = s.
Proof.
  induction s as [|c r IH]; intros k H; [reflexivity|].
  simpl in *. destruct k as [|k].
  - destruct (utf8.decode c r) as [n|]; [|discriminate].
    rewrite IH by assumption. reflexivity.
  - rewrite IH by assumption. reflexivity.
Qed.

Lemma json_string_valid (s : string) :
  utf8.ValidString s = true -> json_string s = s.
Proof. apply json_string_from_valid. Qed.

Lemma ascii_valid_from (s : string) :
  all_chars is_ascii s = true -> utf8.valid_from s 0 = true.
Proof.
  induction s as [|c r IH]; intros H; [reflexivity|].
  simpl in H. apply andb_true_iff in H as [Hc Hr].
  simpl. unfold utf8.decode. unfold is_ascii in Hc. rewrite Hc. auto.
Qed.

Lemma ascii_ValidString (s : string) :
  all_chars is_ascii s = true -> utf8.ValidString s = true.
Proof. apply ascii_valid_from. Qed.

Lemma json_string_ascii (s : string) :
  all_chars is_ascii s = true -> json_string s = s.
Proof. intros H. apply json_string_valid, ascii_ValidString, H. Qed.

(** A document string without a byte from 0x80 up was written from that
    very string. *)
Lemma json_string_from_ascii_inv (s : string) :
  forall k, all_chars is_ascii (json_string_from s k) = true ->
            json_string_from s k = s.
Proof.
  induction s as [|c r IH]; intros k H; [reflexivity|].
  simpl in *. destruct k as [|k].
  - destruct (utf8.decode c r) as [n|].
    + simpl in H. apply andb_true_iff in H as [_ H].
      rewrite IH by assumption. reflexivity.
    + discriminate H.
  - simpl in H. apply andb_true_iff in H as [_ H].
    rewrite IH by assumption. reflexivity.
Qed.

Lemma json_string_inj_ascii (s t : string) :
  all_chars is_ascii s = true -> json_string s = json_string t -> s = t.
Proof.
  intros Hs E. rewrite (json_string_ascii s Hs) in E.
  unfold json_string in E. rewrite <- (json_string_from_ascii_inv t 0).
  - congruence.
  - rewrite <- E. exact Hs.
Qed.

Lemma ip_char_ascii (c : ascii) : ip_char c = true -> is_ascii c = true.
Proof.
  unfold ip_char, net.xdigit, is_ascii. intros H. apply Z.ltb_lt.
  destruct ((48 <=? code c) && (code c <=? 57)) eqn:E1.
  { apply andb_true_iff in E1 as [_ E]. apply Z.leb_le in E. lia. }
  destruct ((97 <=? code c) && (code c <=? 102)) eqn:E2.
  { apply andb_true_iff in E2 as [_ E]. apply Z.leb_le in E. lia. }
  destruct ((65 <=? code c) && (code c <=? 70)) eqn:E3.
  { apply andb_true_iff in E3 as [_ E]. apply Z.leb_le in E. lia. }
  apply orb_true_iff in H as [H|H]; apply Z.eqb_eq in H; lia.
Qed.

Lemma ip_chars_ascii (s : string) :
  all_chars ip_char s = true -> all_chars is_ascii s = true.
Proof.
  induction s as [|c r IH]; intros H; [reflexivity|].
  simpl in *. apply andb_true_iff in H as [Hc Hr].
  rewrite (ip_char_ascii c Hc), IH by assumption. reflexivity.
Qed.

(* ------------------------------------------------------------------ *)
(** ** Lemmas on the address parser *)

Module netfacts.
Import net.

Lemma dtoi_from_stop (rest : string) (n i : Z) :
  stops rest -> i <> 0 -> dtoi_from rest n i = (n, i, true).
Proof.
  intros [-> | [r ->]] Hi; simpl; destruct (Z.eqb_spec i 0); congruence.
Qed.

Lemma dtoi_from_digits (ds rest : string) :
  forall n i, digits_ok ds n = true -> stops rest -> 0 <= i -> i + len ds <> 0 ->
  dtoi_from (ds ++ rest) n i = (value ds n, i + len ds, true).
Proof.
  induction ds as [|c ds IH]; intros n i Hok Hstop Hi Hne.
  - simpl. change (len "") with 0 in *. rewrite Z.add_0_r in *.
    apply dtoi_from_stop; assumption.
  - simpl in Hok. apply andb_true_iff in Hok as [Hok Hrest].
    apply andb_true_iff in Hok as [Hd Hlt].
    simpl. rewrite Hd.
    destruct (Z.geb_spec (n * 10 + (code c - 48)) big) as [Hge|_].
    + apply Z.ltb_lt in Hlt. lia.
    + rewrite len_String. pose proof (len_nonneg ds).
      rewrite IH by (auto; lia). f_equal. f_equal. lia.
Qed.

Lemma octets_all_ok : forallb octet_ok (map Z.of_nat (seq 0 256)) = true.
Proof. vm_compute. reflexivity. Qed.

Lemma octet_ok_true (n : Z) : octet n -> octet_ok n = true.
Proof.
  intros [Hlo Hhi].
  pose proof octets_all_ok as H. rewrite forallb_forall in H.
  apply H. apply in_map_iff. exists (Z.to_nat n). split; [lia|].
  apply in_seq. lia.
Qed.

Lemma at_0_app (s rest : string) : 1 <= len s -> at_ (s ++ rest) 0 = at_ s 0.
Proof. destruct s; [unfold len; simpl; lia | reflexivity]. Qed.

Lemma digits_ok_scan (ds tl whole : string) (n : Z) :
  digits_ok ds n = true ->
  ParseIP_scan (ds ++ String "." tl) whole = parseIPv4 whole.
Proof.
  revert n. induction ds as [|c ds IH]; intros n Hok; [reflexivity|].
  simpl in Hok. apply andb_true_iff in Hok as [Hok Hrest].
  apply andb_true_iff in Hok as [Hd _].
  unfold is_digit in Hd. apply andb_true_iff in Hd as [H1 H2].
  apply Z.leb_le in H1. apply Z.leb_le in H2.
  simpl.
  destruct (Z.eqb_spec (code c) 46); [lia|].
  destruct (Z.eqb_spec (code c) 58); [lia|].
  eapply IH; eauto.
Qed.

Lemma parseIPv4_loop_S (k : nat) (s : string) (p : list Z) :
  parseIPv4_loop (S k) s p =
  let i := IPv4len - Z.of_nat (S k) in
  if len s =? 0 then None
  else
    match (if 0 <? i
           then if at_ s 0 =? 46 then Some (drop 1 s) else None
           else Some s) with
    | None => None
    | Some s =>
        let '(n, c, ok) := dtoi s in
        if negb ok || (n >? 0xFF) then None
        else if (c >? 1) && (at_ s 0 =? 48) then None
        else parseIPv4_loop k (drop c s) (upd i (byte_of n) p)
    end.
Proof. reflexivity. Qed.

(** After the optional dot, one octet is read and stored. *)
Lemma read_octet (n : Z) (rest : string) :
  octet n -> stops rest ->
  dtoi (decimal n ++ rest) = (n, len (decimal n), true)
  /\ (len (decimal n) >? 1) && (at_ (decimal n ++ rest) 0 =? 48) = false
  /\ byte_of n = n
  /\ 1 <= len (decimal n).
Proof.
  intros Hn Hstop. pose proof (octet_ok_true n Hn) as H.
  unfold octet_ok in H. rewrite !andb_true_iff in H.
  destruct H as [[[[Hd Hv] Hl] Hz] Hb].
  apply Z.eqb_eq in Hv. apply Z.leb_le in Hl. apply Z.eqb_eq in Hb.
  apply negb_true_iff in Hz.
  repeat split; auto.
  - unfold dtoi. rewrite dtoi_from_digits by (auto; lia).
    rewrite Hv. reflexivity.
  - rewrite at_0_app by assumption. exact Hz.
Qed.

Lemma parse_first_octet (n : Z) (rest : string) (p : list Z) :
  octet n -> stops rest ->
  parseIPv4_loop 4 (decimal n ++ rest) p = parseIPv4_loop 3 rest (upd 0 n p).
Proof.
  intros Hn Hstop.
  destruct (read_octet n rest Hn Hstop) as (Hd & Hz & Hb & Hl).
  rewrite parseIPv4_loop_S. cbv zeta.
  change (IPv4len - Z.of_nat 4) with 0. change (0 <? 0) with false. cbv iota.
  assert (Hlen : (len (decimal n ++ rest) =? 0) = false).
  { apply Z.eqb_neq. destruct (decimal n) eqn:E.
    - change (len "") with 0 in Hl. lia.
    - simpl append. rewrite len_String. pose proof (len_nonneg (s ++ rest)). lia. }
  rewrite Hlen, Hd, Hz.
  replace (negb true || (n >? 255)) with false
    by (symmetry; destruct Hn; simpl; destruct (Z.gtb_spec n 255); [lia | reflexivity]).
  rewrite Hb, drop_len_app. reflexivity.
Qed.

Lemma parse_next_octet (k : nat) (n : Z) (rest : string) (p : list Z) :
  (k < 3)%nat -> octet n -> stops rest ->
  parseIPv4_loop (S k) (String "." (decimal n ++ rest)) p =
  parseIPv4_loop k rest (upd (3 - Z.of_nat k) n p).
Proof.
  intros Hk Hn Hstop.
  destruct (read_octet n rest Hn Hstop) as (Hd & Hz & Hb & Hl).
  rewrite parseIPv4_loop_S. cbv zeta.
  replace (IPv4len - Z.of_nat (S k)) with (3 - Z.of_nat k) by (unfold IPv4len; lia).
  replace (0 <? 3 - Z.of_nat k) with true by (symmetry; apply Z.ltb_lt; lia).
  rewrite len_String.
  replace (1 + len (decimal n ++ rest) =? 0) with false
    by (symmetry; apply Z.eqb_neq; pose proof (len_nonneg (decimal n ++ rest)); lia).
  rewrite at_0_String. change (code "." =? 46) with true. cbv iota.
  change (drop 1 (String "." (decimal n ++ rest))) with (decimal n ++ rest)%string.
  rewrite Hd, Hz.
  replace (negb true || (n >? 255)) with false
    by (symmetry; destruct Hn; simpl; destruct (Z.gtb_spec n 255); [lia | reflexivity]).
  rewrite Hb, drop_len_app. reflexivity.
Qed.

Lemma stops_dot (r : string) : stops (String "." r).
Proof. right. eexists. reflexivity. Qed.

Lemma stops_empty : stops EmptyString.
Proof. left. reflexivity. Qed.

Lemma dot_app (x : string) : ("." ++ x)%string = String "." x.
Proof. reflexivity. Qed.

Lemma app_empty (s : string) : (s ++ "")%string = s.
Proof. induction s; simpl; congruence. Qed.

Lemma parseIPv4_dotted (a b c d : Z) :
  octet a -> octet b -> octet c -> octet d ->
  parseIPv4 (dotted a b c d) = Some (IPv4 a b c d).
Proof.
  intros Ha Hb Hc Hd. unfold parseIPv4, dotted.
  rewrite !dot_app.
  rewrite parse_first_octet; [| assumption | apply stops_dot].
  rewrite (parse_next_octet 2); [| lia | assumption | apply stops_dot].
  rewrite (parse_next_octet 1); [| lia | assumption | apply stops_dot].
  rewrite <- (app_empty (decimal d)).
  rewrite (parse_next_octet 0); [| lia | assumption | apply stops_empty].
  reflexivity.
Qed.

Lemma ParseIP_dotted (a b c d : Z) :
  octet a -> octet b -> octet c -> octet d ->
  ParseIP (dotted a b c d) = Some (IPv4 a b c d).
Proof.
  intros Ha Hb Hc Hd. unfold ParseIP.
  rewrite <- (parseIPv4_dotted a b c d) by assumption.
  unfold dotted at 1. rewrite !dot_app.
  pose proof (octet_ok_true a Ha) as H. unfold octet_ok in H.
  rewrite !andb_true_iff in H. destruct H as [[[[Hok _] _] _] _].
  eapply digits_ok_scan; eauto.
Qed.

Lemma To4_IPv4 (a b c d : Z) : To4 (IPv4 a b c d) = Some [a; b; c; d].
Proof. reflexivity. Qed.

End netfacts.

(* ------------------------------------------------------------------ *)
(** ** What the address parser accepts *)

Module netchars.
Import net.

Lemma all_chars_app f (a b : string) :
  all_chars f (a ++ b) = all_chars f a && all_chars f b.
Proof. induction a as [|c a IH]; simpl; [reflexivity|]. rewrite IH. apply andb_assoc. Qed.

Lemma app_assoc_str (a b c : string) : ((a ++ b) ++ c = a ++ (b ++ c))%string.
Proof. induction a as [|x a IH]; simpl; congruence. Qed.

Lemma len_0 (s : string) : len s = 0 -> s = EmptyString.
Proof. destruct s; [reflexivity|]. rewrite len_String. pose proof (len_nonneg s). lia. Qed.

Lemma is_digit_ip_char (c : ascii) : is_digit c = true -> ip_char c = true.
Proof. unfold is_digit, ip_char, xdigit. intros ->. reflexivity. Qed.

Lemma code_ip_char (c : ascii) : code c = 46 \/ code c = 58 -> ip_char c = true.
Proof. unfold ip_char, xdigit. intros [-> | ->]; reflexivity. Qed.

(** The first character, when [at_ s 0] tells it. *)
Lemma at_0_shape (s : string) (k : Z) :
  at_ s 0 = k -> k <> 0 -> exists c r, s = String c r /\ code c = k /\ drop 1 s = r.
Proof.
  destruct s as [|c r]; [intros <- H; contradiction H; reflexivity|].
  intros <- _. exists c, r. repeat split.
Qed.

Lemma dtoi_from_split (s : string) :
  forall n i n' c, dtoi_from s n i = (n', c, true) ->
  exists pre rest, s = (pre ++ rest)%string /\ c = i + len pre
                   /\ all_chars ip_char pre = true.
Proof.
  induction s as [|a s IH]; intros n i n' c H; simpl in H.
  - destruct (i =? 0); [discriminate|]. injection H as _ <-.
    exists EmptyString, EmptyString. repeat split. change (len "") with 0. lia.
  - destruct (is_digit a) eqn:D.
    + destruct (n * 10 + (code a - 48) >=? big); [discriminate|].
      destruct (IH _ _ _ _ H) as (pre & rest & -> & -> & Hall).
      exists (String a pre), rest. repeat split.
      * rewrite len_String. lia.
      * simpl. rewrite Hall, (is_digit_ip_char a D). reflexivity.
    + destruct (i =? 0); [discriminate|]. injection H as _ <-.
      exists EmptyString, (String a s). repeat split. change (len "") with 0. lia.
Qed.

Lemma xtoi_from_split (s : string) :
  forall n i n' c, xtoi_from s n i = (n', c, true) ->
  exists pre rest, s = (pre ++ rest)%string /\ c = i + len pre
                   /\ all_chars ip_char pre = true.
Proof.
  induction s as [|a s IH]; intros n i n' c H; simpl in H.
  - destruct (i =? 0); [discriminate|]. injection H as _ <-.
    exists EmptyString, EmptyString. repeat split. change (len "") with 0. lia.
  - destruct (xdigit a) as [d|] eqn:D.
    + destruct (i >? 3); [discriminate|].
      destruct (n * 16 + d >? 65535); [discriminate|].
      destruct (IH _ _ _ _ H) as (pre & rest & -> & -> & Hall).
      exists (String a pre), rest. repeat split.
      * rewrite len_String. lia.
      * simpl. rewrite Hall. unfold ip_char. rewrite D. reflexivity.
    + destruct (i =? 0); [discriminate|]. injection H as _ <-.
      exists EmptyString, (String a s). repeat split. change (len "") with 0. lia.
Qed.

Lemma parseIPv4_loop_chars (k : nat) :
  forall s p p' s', parseIPv4_loop k s p = Some (p', s') ->
  exists pre, s = (pre ++ s')%string /\ all_chars ip_char pre = true.
Proof.
  induction k as [|k IH]; intros s p p' s' H.
  - injection H as _ <-. exists EmptyString. split; reflexivity.
  - rewrite netfacts.parseIPv4_loop_S in H. cbv zeta in H.
    destruct (len s =? 0); [discriminate|].
    assert (exists dot s1, s = (dot ++ s1)%string /\ all_chars ip_char dot = true
              /\ (let '(n, c, ok) := dtoi s1 in
                  if negb ok || (n >? 255) then None
                  else if (c >? 1) && (at_ s1 0 =? 48) then None
                  else parseIPv4_loop k (drop c s1)
                         (upd (IPv4len - Z.of_nat (S k)) (byte_of n) p))
                 = Some (p', s')) as (dot & s1 & -> & Hdot & H1).
    { destruct (0 <? IPv4len - Z.of_nat (S k)).
      - destruct (Z.eqb_spec (at_ s 0) 46) as [E|]; [|discriminate].
        destruct (at_0_shape s 46 E) as (c & r & -> & Hc & Hd); [lia|].
        rewrite Hd in H. exists (String c EmptyString), r.
        repeat split; [|exact H]. simpl. rewrite code_ip_char by auto. reflexivity.
      - exists EmptyString, s. repeat split. exact H. }
    destruct (dtoi s1) as [[n c] ok] eqn:D.
    destruct ok; [|discriminate]. simpl negb in H1. simpl orb in H1.
    destruct (n >? 255); [discriminate|].
    destruct ((c >? 1) && (at_ s1 0 =? 48)); [discriminate|].
    unfold dtoi in D.
    destruct (dtoi_from_split _ _ _ _ _ D) as (pre & rest & -> & -> & Hpre).
    rewrite Z.add_0_l, drop_len_app in H1.
    destruct (IH _ _ _ _ H1) as (pre2 & -> & Hpre2).
    exists (dot ++ pre ++ pre2)%string. split.
    + rewrite !app_assoc_str. reflexivity.
    + rewrite !all_chars_app, Hdot, Hpre, Hpre2. reflexivity.
Qed.

Lemma parseIPv4_chars (s : string) (ip : IP) :
  parseIPv4 s = Some ip -> all_chars ip_char s = true.
Proof.
  unfold parseIPv4. intros H.
  destruct (parseIPv4_loop 4 s [0; 0; 0; 0]) as [[p s']|] eqn:E; [|discriminate].
  destruct (Z.eqb_spec (len s') 0) as [L|]; [|discriminate].
  apply len_0 in L. subst s'.
  destruct (parseIPv4_loop_chars _ _ _ _ _ E) as (pre & -> & Hpre).
  rewrite netfacts.app_empty. exact Hpre.
Qed.

Lemma parseIPv6_loop_S (k : nat) (s : string) (ip : IP) (ellipsis : Z) :
  parseIPv6_loop (S k) s ip ellipsis =
  let i := IPv6len - 2 * Z.of_nat (S k) in
  let '(n, c, ok) := xtoi s in
  if negb ok || (n >? 0xFFFF) then None
  else if (c <? len s) && (at_ s c =? 46) then
    if (ellipsis <? 0) && negb (i =? IPv6len - IPv4len) then None
    else if i + IPv4len >? IPv6len then None
    else
      match parseIPv4 s with
      | None => None
      | Some ip4 =>
          let ip := upd i (idx ip4 12) ip in
          let ip := upd (i + 1) (idx ip4 13) ip in
          let ip := upd (i + 2) (idx ip4 14) ip in
          let ip := upd (i + 3) (idx ip4 15) ip in
          Some (i + IPv4len, EmptyString, ip, ellipsis)
      end
  else
    let ip := upd i (byte_of (Z.shiftr n 8)) ip in
    let ip := upd (i + 1) (byte_of n) ip in
    let i := i + 2 in
    let s := drop c s in
    if len s =? 0 then Some (i, s, ip, ellipsis)
    else if negb (at_ s 0 =? 58) || (len s =? 1) then None
    else
      let s := drop 1 s in
      if at_ s 0 =? 58 then
        if ellipsis >=? 0 then None
        else
          let ellipsis := i in
          let s := drop 1 s in
          if len s =? 0 then Some (i, s, ip, ellipsis)
          else parseIPv6_loop k s ip ellipsis
      else parseIPv6_loop k s ip ellipsis.
Proof. reflexivity. Qed.

Ltac head_if H :=
  match type of H with
  | (if ?b then _ else _) = _ => let E := fresh "E" in destruct b eqn:E
  end.

Lemma parseIPv6_loop_chars (k : nat) :
  forall s ip e i s' ip' e', parseIPv6_loop k s ip e = Some (i, s', ip', e') ->
  exists pre, s = (pre ++ s')%string /\ all_chars ip_char pre = true.
Proof.
  induction k as [|k IH]; intros s ip e i s' ip' e' H.
  - injection H as _ <- _ _. exists EmptyString. split; reflexivity.
  - rewrite parseIPv6_loop_S in H. cbv zeta in H.
    destruct (xtoi s) as [[n c] ok] eqn:X.
    destruct ok; [|discriminate].
    head_if H; [discriminate|]. clear E.
    head_if H.
    + clear E. head_if H; [discriminate|]. clear E.
      head_if H; [discriminate|]. clear E.
      destruct (parseIPv4 s) as [ip4|] eqn:P4; [|discriminate].
      injection H as _ <- _ _. exists s. split.
      * rewrite netfacts.app_empty. reflexivity.
      * eapply parseIPv4_chars; eauto.
    + clear E. unfold xtoi in X.
      destruct (xtoi_from_split _ _ _ _ _ X) as (pre & rest & -> & -> & Hpre).
      rewrite Z.add_0_l, drop_len_app in H.
      head_if H.
      { injection H as _ <- _ _. exists pre. split; auto. }
      clear E. head_if H; [discriminate|].
      apply orb_false_iff in E as [E _]. apply negb_false_iff, Z.eqb_eq in E.
      destruct (at_0_shape rest 58 E) as (c1 & r1 & -> & Hc1 & Hd1); [lia|].
      rewrite Hd1 in H.
      assert (Hcolon : ip_char c1 = true) by (apply code_ip_char; auto).
      head_if H.
      * apply Z.eqb_eq in E0.
        head_if H; [discriminate|]. clear E1.
        destruct (at_0_shape r1 58 E0) as (c2 & r2 & -> & Hc2 & Hd2); [lia|].
        rewrite Hd2 in H.
        assert (Hcolon2 : ip_char c2 = true) by (apply code_ip_char; auto).
        assert (exists pre2, r2 = (pre2 ++ s')%string /\ all_chars ip_char pre2 = true)
          as (pre2 & -> & Hpre2).
        { head_if H.
          - injection H as _ <- _ _. exists EmptyString. split; reflexivity.
          - eapply IH; eauto. }
        exists (pre ++ String c1 (String c2 pre2))%string. split.
        -- rewrite app_assoc_str. reflexivity.
        -- rewrite all_chars_app, Hpre. simpl.
           rewrite Hcolon, Hcolon2, Hpre2. reflexivity.
      * destruct (IH _ _ _ _ _ _ _ H) as (pre2 & -> & Hpre2).
        exists (pre ++ String c1 pre2)%string. split.
        -- rewrite app_assoc_str. reflexivity.
        -- rewrite all_chars_app, Hpre. simpl. rewrite Hcolon, Hpre2. reflexivity.
Qed.

Lemma parseIPv6_chars (s : string) (ip : IP) :
  parseIPv6 s = Some ip -> all_chars ip_char s = true.
Proof.
  unfold parseIPv6. intros H. cbv zeta in H.
  destruct ((len s >=? 2) && (at_ s 0 =? 58) && (at_ s 1 =? 58)) eqn:L.
  - apply andb_true_iff in L as [L L1]. apply andb_true_iff in L as [_ L0].
    apply Z.eqb_eq in L0. apply Z.eqb_eq in L1.
    destruct (at_0_shape s 58 L0) as (c0 & r0 & -> & Hc0 & _); [lia|].
    assert (L1' : at_ r0 0 = 58) by exact L1.
    destruct (at_0_shape r0 58 L1') as (c1 & r1 & -> & Hc1 & _); [lia|].
    change (drop 2 (String c0 (String c1 r1))) with r1 in H.
    simpl. rewrite !code_ip_char by auto. simpl.
    simpl andb in H.
    destruct (Z.eqb_spec (len r1) 0) as [E|E].
    + apply len_0 in E. subst r1. reflexivity.
    + destruct (parseIPv6_loop 8 r1 (repeat 0 16) 0) as [[[[i s'] ip'] e']|] eqn:P;
        [|discriminate].
      destruct (Z.eqb_spec (len s') 0) as [E'|]; [|discriminate].
      apply len_0 in E'. subst s'.
      destruct (parseIPv6_loop_chars _ _ _ _ _ _ _ _ P) as (pre & -> & Hpre).
      rewrite netfacts.app_empty. exact Hpre.
  - simpl andb in H.
    destruct (parseIPv6_loop 8 s (repeat 0 16) (-1)) as [[[[i s'] ip'] e']|] eqn:P;
      [|discriminate].
    destruct (Z.eqb_spec (len s') 0) as [E'|]; [|discriminate].
    apply len_0 in E'. subst s'.
    destruct (parseIPv6_loop_chars _ _ _ _ _ _ _ _ P) as (pre & -> & Hpre).
    rewrite netfacts.app_empty. exact Hpre.
Qed.

Lemma ParseIP_scan_chars (rest whole : string) (ip : IP) :
  ParseIP_scan rest whole = Some ip -> all_chars ip_char whole = true.
Proof.
  induction rest as [|c r IH]; simpl; [discriminate|].
  destruct (code c =? 46); [apply parseIPv4_chars|].
  destruct (code c =? 58); [apply parseIPv6_chars|]. exact IH.
Qed.

Lemma ParseIP_chars (s : string) (ip : IP) :
  ParseIP s = Some ip -> all_chars ip_char s = true.
Proof. apply ParseIP_scan_chars. Qed.

End netchars.

(* ------------------------------------------------------------------ *)
(** ** What each call answers

    [Resolve], [Get] and [Set_] each make exactly one call to the world and
    never panic; their answers, by cases on what the world replied. *)

Lemma Resolve_eq (p : publicIPResolver) (w : world) :
  Resolve p w =
  (Returns (Resolve_answer (Output w "dig" (dig_args p))), [Exec "dig" (dig_args p)]).
Proof.
  unfold Resolve, bind, exec_Output, dig_args.
  destruct (Output w "dig" _) as [output [failure|]]; simpl; [reflexivity|].
  destruct output as [|b0 output]; [reflexivity|].
  set (out := b0 :: output).
  assert (Hne : blen out <> 0) by (unfold blen, out; simpl List.length; lia).
  destruct (Z.eqb_spec (blen out) 0) as [|_]; [contradiction|].
  rewrite slice_all_but_last by assumption.
  unfold Resolve_answer, accepts. fold out.
  destruct (net.ParseIP (string_of_list_byte (removelast out))) as [ip|];
    [destruct (net.To4 ip)|]; reflexivity.
Qed.

Lemma Get_eq (l : liveDNSConfig) (w : world) :
  Get l w =
  (Returns (Get_answer (Do w (mkreq l "GET" None))),
   req_trace (Do w (mkreq l "GET" None)) (mkreq l "GET" None)).
Proof.
  unfold Get, bind, req, Get_answer, req_trace.
  destruct (Do w (mkreq l "GET" None)) as [res|[d|d]]; [|reflexivity|reflexivity].
  destruct (Body res) as [d|r]; [reflexivity|]. unfold Decode. cbv iota beta.
  destruct (Values r) as [[|v vs]|]; simpl; try reflexivity.
  destruct (String.eqb v ""); reflexivity.
Qed.

Lemma Set_eq (l : liveDNSConfig) (ip : string) (w : world) :
  Set_ l ip w =
  (Returns (Set_answer (Do w (mkreq l "PUT" (Some (payload ip))))),
   req_trace (Do w (mkreq l "PUT" (Some (payload ip))))
             (mkreq l "PUT" (Some (payload ip)))).
Proof.
  unfold Set_, Encode, bind, req, Set_answer, req_trace.
  fold (payload ip). cbv iota beta.
  destruct (Do w (mkreq l "PUT" (Some (payload ip)))) as [res|[d|d]];
    [|reflexivity|reflexivity].
  destruct (StatusCode res =? StatusCreated); reflexivity.
Qed.

(** A successful answer is never the empty string; a failed one always is. *)
Lemma accepts_nonempty (s : string) : accepts s = true -> s <> "".
Proof. intros H ->. discriminate H. Qed.

Lemma Resolve_answer_ok reply ip :
  Resolve_answer reply = (ip, None) -> ip <> "".
Proof.
  destruct reply as [output [failure|]]; simpl; [discriminate|].
  destruct output as [|b0 output]; [discriminate|].
  destruct (accepts _) eqn:E; [|discriminate].
  intros H. inversion H; subst. now apply accepts_nonempty.
Qed.

Lemma Resolve_answer_accepts reply ip :
  Resolve_answer reply = (ip, None) -> accepts ip = true.
Proof.
  destruct reply as [output [failure|]]; simpl; [discriminate|].
  destruct output as [|b0 output]; [discriminate|].
  destruct (accepts _) eqn:E; [|discriminate].
  intros H. inversion H; subst. exact E.
Qed.

Lemma Resolve_answer_err reply ip e :
  Resolve_answer reply = (ip, Some e) -> ip = "".
Proof.
  destruct reply as [output [failure|]]; simpl; [congruence|].
  destruct output as [|b0 output]; [congruence|].
  destruct (accepts _); congruence.
Qed.

Lemma Get_answer_ok reply r : Get_answer reply = (r, None) -> r <> "".
Proof.
  destruct reply as [res|failure]; simpl; [|discriminate].
  destruct (Body res) as [d|rec]; [discriminate|].
  destruct (Values rec) as [[|v vs]|]; try discriminate.
  destruct (String.eqb_spec v ""); [discriminate|]. congruence.
Qed.

Lemma Get_answer_err reply r e : Get_answer reply = (r, Some e) -> r = "".
Proof.
  destruct reply as [res|failure]; simpl; [|congruence].
  destruct (Body res) as [d|rec]; [congruence|].
  destruct (Values rec) as [[|v vs]|]; try congruence.
  destruct (String.eqb v ""); congruence.
Qed.

(** A call that got a response has sent its request. *)
Lemma Get_answer_ok_trace reply r rq :
  Get_answer reply = (r, None) -> req_trace reply rq = [Req rq].
Proof. destruct reply as [res|[d|d]]; simpl; [reflexivity | discriminate | discriminate]. Qed.

Lemma req_trace_cases reply rq :
  req_trace reply rq = [] \/ req_trace reply rq = [Req rq].
Proof. destruct reply as [res|[d|d]]; simpl; auto. Qed.

Lemma Get_calls_Set_trace dyndns w ip : Get_calls (Set_trace dyndns w ip) = [].
Proof. unfold Set_trace. destruct (Do w _) as [res|[d|d]]; reflexivity. Qed.

Lemma Set_calls_Get_trace dyndns w : Set_calls (Get_trace dyndns w) = [].
Proof. unfold Get_trace. destruct (Do w _) as [res|[d|d]]; reflexivity. Qed.

Lemma Set_calls_Set_trace dyndns w ip : Set_calls (Set_trace dyndns w ip) = Set_trace dyndns w ip.
Proof. unfold Set_trace. destruct (Do w _) as [res|[d|d]]; reflexivity. Qed.

Lemma Get_calls_Get_trace dyndns w : Get_calls (Get_trace dyndns w) = Get_trace dyndns w.
Proof. unfold Get_trace. destruct (Do w _) as [res|[d|d]]; reflexivity. Qed.

Lemma log_free_Set_trace dyndns w ip : filter is_log (Set_trace dyndns w ip) = [].
Proof. unfold Set_trace. destruct (Do w _) as [res|[d|d]]; reflexivity. Qed.

Lemma log_free_Get_trace dyndns w : filter is_log (Get_trace dyndns w) = [].
Proof. unfold Get_trace. destruct (Do w _) as [res|[d|d]]; reflexivity. Qed.

Lemma In_Get_trace dyndns w e : In e (Get_trace dyndns w) -> e = get_event dyndns.
Proof.
  unfold Get_trace, get_event.
  destruct (Do w _) as [res|[d|d]]; simpl; intros H; try contradiction;
    destruct H as [H|[]]; symmetry; exact H.
Qed.

Lemma In_Set_trace dyndns w ip e :
  In e (Set_trace dyndns w ip) -> e = set_event dyndns ip.
Proof.
  unfold Set_trace, set_event.
  destruct (Do w _) as [res|[d|d]]; simpl; intros H; try contradiction;
    destruct H as [H|[]]; symmetry; exact H.
Qed.

Lemma accepts_ascii (s : string) : accepts s = true -> all_chars is_ascii s = true.
Proof.
  unfold accepts. intros H.
  destruct (net.ParseIP s) as [ip|] eqn:E; [|discriminate].
  apply ip_chars_ascii. eapply netchars.ParseIP_chars. exact E.
Qed.

(** The write of an accepted address is the write of no other string. *)
Lemma set_event_inj dyndns (ip cur : string) :
  accepts cur = true -> set_event dyndns ip = set_event dyndns cur -> ip = cur.
Proof.
  intros Hacc E. unfold set_event, mkreq, payload, Marshal in E. simpl in E.
  injection E as E. symmetry.
  apply json_string_inj_ascii; [apply accepts_ascii; assumption | congruence].
Qed.

Lemma Set_trace_length dyndns w ip : (List.length (Set_trace dyndns w ip) <= 1)%nat.
Proof. unfold Set_trace. destruct (Do w _) as [res|[d|d]]; simpl; lia. Qed.

(* ------------------------------------------------------------------ *)
(** ** The paths of one tick *)

Section Tick.

Variables (dyndns : liveDNSConfig) (publicip : publicIPResolver).
Variables (w : world) (st : LoopState).

(** Address resolution failed. *)
Lemma tick_resolve_fails (e : error) :
  snd (resolved publicip w) = Some e ->
  loop dyndns publicip st w =
  (Returns {| registeredIP := registeredIP st; currentIP := ""; err := Some e |},
   [resolve_event publicip;
    Println [LStr "Error: failed to get pulic IP:"; LErr e]]).
Proof.
  intros H. unfold loop, bind. rewrite Resolve_eq. fold (resolved publicip w).
  destruct (resolved publicip w) as [ip e'] eqn:E. simpl in H. subst e'.
  apply Resolve_answer_err in E. subst ip. reflexivity.
Qed.

(** An address is already cached: nothing but the resolution happens. *)
Lemma tick_cached (cur : string) :
  resolved publicip w = (cur, None) -> registeredIP st <> "" ->
  loop dyndns publicip st w =
  (Returns {| registeredIP := registeredIP st; currentIP := cur; err := None |},
   [resolve_event publicip]).
Proof.
  intros H Hreg. unfold loop, bind. rewrite Resolve_eq. fold (resolved publicip w).
  rewrite H. simpl.
  destruct (String.eqb_spec (registeredIP st) ""); [contradiction|reflexivity].
Qed.

(** Nothing cached and the read failed. *)
Lemma tick_get_fails (cur : string) (e : error) :
  resolved publicip w = (cur, None) -> registeredIP st = "" -> snd (fetched dyndns w) = Some e ->
  loop dyndns publicip st w =
  (Returns {| registeredIP := ""; currentIP := cur; err := Some e |},
   (resolve_event publicip :: Get_trace dyndns w ++
    [Println [LStr "Error: failed to to get current dyndns record:"; LErr e]])%list).
Proof.
  intros H Hreg Hget. unfold loop, bind. rewrite Resolve_eq. fold (resolved publicip w).
  rewrite H. simpl. rewrite Hreg. simpl. rewrite Get_eq.
  fold (fetched dyndns w). fold (Get_trace dyndns w).
  destruct (fetched dyndns w) as [r e'] eqn:E. simpl in Hget. subst e'.
  apply Get_answer_err in E. subst r. reflexivity.
Qed.

(** Nothing cached, the read gave the resolved address. *)
Lemma tick_get_same (cur : string) :
  resolved publicip w = (cur, None) -> registeredIP st = "" -> fetched dyndns w = (cur, None) ->
  loop dyndns publicip st w =
  (Returns {| registeredIP := cur; currentIP := cur; err := None |},
   [resolve_event publicip; get_event dyndns]).
Proof.
  intros H Hreg Hget. unfold loop, bind. rewrite Resolve_eq. fold (resolved publicip w).
  rewrite H. simpl. rewrite Hreg. simpl. rewrite Get_eq.
  rewrite (Get_answer_ok_trace _ cur _ Hget). fold (fetched dyndns w).
  rewrite Hget. simpl. rewrite String.eqb_refl. reflexivity.
Qed.

(** Nothing cached, the read gave another address: one write. *)
Lemma tick_get_differs (cur r : string) :
  resolved publicip w = (cur, None) -> registeredIP st = "" -> fetched dyndns w = (r, None) ->
  r <> cur ->
  loop dyndns publicip st w =
  (Returns {| registeredIP := r; currentIP := cur; err := written dyndns w cur |},
   (resolve_event publicip :: get_event dyndns :: Set_trace dyndns w cur ++
    [match written dyndns w cur with
     | Some e => Println [LStr "Error: updating DNS record:"; LErr e]
     | None => Print [LStr "Info: updated Gandi records with IP:"; LStr cur]
     end])%list).
Proof.
  intros H Hreg Hget Hne. unfold loop, bind. rewrite Resolve_eq. fold (resolved publicip w).
  rewrite H. simpl. rewrite Hreg. simpl. rewrite Get_eq.
  rewrite (Get_answer_ok_trace _ r _ Hget). fold (fetched dyndns w).
  rewrite Hget. simpl.
  destruct (String.eqb_spec r cur); [contradiction|]. simpl.
  rewrite Set_eq. fold (written dyndns w cur). fold (Set_trace dyndns w cur).
  destruct (written dyndns w cur); reflexivity.
Qed.

Lemma tick_cases : tick_path dyndns publicip w st.
Proof.
  destruct (resolved publicip w) as [cur [e|]] eqn:E.
  - eapply ResolveFails. rewrite E. reflexivity.
  - destruct (String.eqb_spec (registeredIP st) "") as [Hreg|Hreg].
    + destruct (fetched dyndns w) as [r [e|]] eqn:G.
      * eapply GetFails; eauto. rewrite G. reflexivity.
      * destruct (String.eqb_spec r cur) as [->|Hne].
        -- eapply GetSame; eauto.
        -- eapply GetDiffers; eauto.
    + eapply Cached; eauto.
Qed.

End Tick.

(* ------------------------------------------------------------------ *)
(** ** Consequences for one tick and for runs *)

Lemma loop_returns dyndns publicip st w :
  exists st' tr, loop dyndns publicip st w = (Returns st', tr).
Proof.
  destruct (tick_cases dyndns publicip w st)
    as [e H | cur H Hreg | cur e H Hreg G | cur H Hreg G | cur r H Hreg G Hne].
  - rewrite (tick_resolve_fails _ _ _ _ e H). eauto.
  - rewrite (tick_cached _ _ _ _ cur H Hreg). eauto.
  - rewrite (tick_get_fails _ _ _ _ cur e H Hreg G). eauto.
  - rewrite (tick_get_same _ _ _ _ cur H Hreg G). eauto.
  - rewrite (tick_get_differs _ _ _ _ cur r H Hreg G Hne). eauto.
Qed.

(** With an address cached, a tick leaves it alone and calls no provider. *)
Lemma loop_with_cache dyndns publicip st w :
  registeredIP st <> "" ->
  exists st' tr,
    loop dyndns publicip st w = (Returns st', tr)
    /\ registeredIP st' = registeredIP st
    /\ Get_calls tr = [] /\ Set_calls tr = [].
Proof.
  intros Hreg.
  destruct (tick_cases dyndns publicip w st)
    as [e H | cur H _ | cur e H Hreg' G | cur H Hreg' G | cur r H Hreg' G Hne];
    try contradiction.
  - rewrite (tick_resolve_fails _ _ _ _ e H). do 2 eexists. repeat split.
  - rewrite (tick_cached _ _ _ _ cur H Hreg). do 2 eexists. repeat split.
Qed.

Lemma run_with_cache dyndns publicip ws :
  forall st, registeredIP st <> "" ->
  exists st' tr,
    run dyndns publicip ws st = (Returns st', tr)
    /\ registeredIP st' = registeredIP st
    /\ Get_calls tr = [] /\ Set_calls tr = [].
Proof.
  induction ws as [|w ws IH]; intros st Hreg.
  - simpl. do 2 eexists. repeat split.
  - destruct (loop_with_cache dyndns publicip st w Hreg)
      as (st1 & tr1 & E1 & R1 & G1 & S1).
    assert (Hreg1 : registeredIP st1 <> "") by congruence.
    destruct (IH st1 Hreg1) as (st2 & tr2 & E2 & R2 & G2 & S2).
    simpl. rewrite E1, E2. do 2 eexists. split; [reflexivity|].
    unfold Get_calls, Set_calls in *. rewrite !filter_app, G1, G2, S1, S2.
    repeat split. congruence.
Qed.

(* ------------------------------------------------------------------ *)
(** ** The update loop *)

(** C1.  With the address 1.2.3.4 cached and 1.2.3.5 resolved, the tick
    makes no provider call at all and the cache keeps 1.2.3.4, although
    the provider would have answered "created".  And in the one tick that
    can write (nothing cached, the provider holds 1.2.3.4, 1.2.3.5
    resolved) the write succeeds and the cache still keeps 1.2.3.4. *)
Theorem cached_address_never_updated :
  loop Sample.dyndns Sample.publicip (Sample.cached "1.2.3.4" "1.2.3.4")
       (Sample.world_of "1.2.3.5" "1.2.3.4" 201)
  = (Returns (Sample.cached "1.2.3.4" "1.2.3.5"),
     [resolve_event Sample.publicip])
  /\
  loop Sample.dyndns Sample.publicip initial
       (Sample.world_of "1.2.3.5" "1.2.3.4" 201)
  = (Returns (Sample.cached "1.2.3.4" "1.2.3.5"),
     [resolve_event Sample.publicip; get_event Sample.dyndns;
      set_event Sample.dyndns "1.2.3.5";
      Print [LStr "Info: updated Gandi records with IP:"; LStr "1.2.3.5"]]).
Proof. split; vm_compute; reflexivity. Qed.

(** C2.  [Get] is called only in a tick that starts with an empty cache
    and a successful resolution.  When such a tick's read succeeds with
    [r], the cache becomes [r], which is not empty, and however many ticks
    follow, none of them calls [Get] and the cache still holds [r]. *)
Theorem Get_only_while_cache_empty dyndns publicip w st cur r ws :
  registeredIP st = "" ->
  fst (Resolve publicip w) = Returns (cur, None) ->
  fst (Get dyndns w) = Returns (r, None) ->
  (forall st0 w0,
      Get_calls (snd (loop dyndns publicip st0 w0)) <> [] -> registeredIP st0 = "")
  /\ exists st1 tr1 st2 tr2,
       loop dyndns publicip st w = (Returns st1, tr1)
       /\ Get_calls tr1 = [get_event dyndns]
       /\ registeredIP st1 = r /\ r <> ""
       /\ run dyndns publicip ws st1 = (Returns st2, tr2)
       /\ Get_calls tr2 = []
       /\ registeredIP st2 = r.
Proof.
  intros Hreg HR HG. split.
  - intros st0 w0 Hcalls.
    destruct (String.eqb_spec (registeredIP st0) "") as [|Hne]; [assumption|].
    destruct (loop_with_cache dyndns publicip st0 w0 Hne) as (s & t & E & _ & G & _).
    rewrite E in Hcalls. contradiction.
  - rewrite Resolve_eq in HR. rewrite Get_eq in HG. simpl in HR, HG.
    injection HR as HR. injection HG as HG.
    pose proof (Get_answer_ok _ _ HG) as Hr.
    assert (exists st1 tr1,
               loop dyndns publicip st w = (Returns st1, tr1)
               /\ Get_calls tr1 = [get_event dyndns] /\ registeredIP st1 = r)
      as (st1 & tr1 & E1 & G1 & R1).
    { destruct (String.eqb_spec r cur) as [->|Hne].
      - rewrite (tick_get_same _ _ _ _ cur HR Hreg HG).
        do 2 eexists. repeat split.
      - rewrite (tick_get_differs _ _ _ _ cur r HR Hreg HG Hne).
        do 2 eexists. split; [reflexivity|]. split; [|reflexivity].
        unfold Get_calls. simpl. rewrite filter_app.
        fold (Get_calls (Set_trace dyndns w cur)). rewrite Get_calls_Set_trace.
        destruct (written _ _ _); reflexivity. }
    assert (Hreg1 : registeredIP st1 <> "") by congruence.
    destruct (run_with_cache dyndns publicip ws st1 Hreg1)
      as (st2 & tr2 & E2 & R2 & G2 & _).
    exists st1, tr1, st2, tr2. repeat split; auto. congruence.
Qed.

(** The first tick reads 1.2.3.4; two more ticks follow, one resolving
    another address and one failing to resolve. *)
Lemma Get_only_while_cache_empty_witness :
  exists st1 tr1 st2 tr2,
    loop Sample.dyndns Sample.publicip initial (Sample.world_of "1.2.3.4" "1.2.3.4" 201)
      = (Returns st1, tr1)
    /\ Get_calls tr1 = [get_event Sample.dyndns]
    /\ registeredIP st1 = "1.2.3.4" /\ "1.2.3.4" <> ""
    /\ run Sample.dyndns Sample.publicip
         [Sample.world_of "1.2.3.5" "1.2.3.4" 201; Sample.dig_down] st1
       = (Returns st2, tr2)
    /\ Get_calls tr2 = []
    /\ registeredIP st2 = "1.2.3.4".
Proof.
  apply (Get_only_while_cache_empty Sample.dyndns Sample.publicip
           (Sample.world_of "1.2.3.4" "1.2.3.4" 201) initial "1.2.3.4" "1.2.3.4"
           [Sample.world_of "1.2.3.5" "1.2.3.4" 201; Sample.dig_down]).
  - reflexivity.
  - vm_compute. reflexivity.
  - vm_compute. reflexivity.
Defined.

(** C3, as stated, fails: a failed resolution overwrites [currentIP].
    With 1.2.3.4 as the last resolved address and [dig] failing, the tick
    ends with an empty [currentIP]. *)
Lemma failed_resolution_clears_currentIP :
  loop Sample.dyndns Sample.publicip (Sample.cached "1.2.3.4" "1.2.3.4") Sample.dig_down
  = (Returns {| registeredIP := "1.2.3.4"; currentIP := "";
                err := Some (ExecError "exit status 9") |},
     [resolve_event Sample.publicip;
      Println [LStr "Error: failed to get pulic IP:";
               LErr (ExecError "exit status 9")]])
  /\ currentIP (Sample.cached "1.2.3.4" "1.2.3.4") <> "".
Proof. split; [vm_compute; reflexivity | discriminate]. Qed.

(** C3, amended.  When the resolution fails with [e], the tick logs [e]
    and ends: it calls neither [Get] nor [Set], and [registeredIP] is
    unchanged.  [currentIP] is set to the empty string and [err] to [e]. *)
Theorem resolution_failure_skips_tick dyndns publicip w st ip e :
  fst (Resolve publicip w) = Returns (ip, Some e) ->
  exists st' tr,
    loop dyndns publicip st w = (Returns st', tr)
    /\ tr = [resolve_event publicip;
             Println [LStr "Error: failed to get pulic IP:"; LErr e]]
    /\ Get_calls tr = [] /\ Set_calls tr = []
    /\ registeredIP st' = registeredIP st
    /\ currentIP st' = ""
    /\ err st' = Some e.
Proof.
  intros HR. rewrite Resolve_eq in HR. simpl in HR. injection HR as HR.
  assert (H : snd (Resolve_answer (Output w "dig" (dig_args publicip))) = Some e)
    by (rewrite HR; reflexivity).
  rewrite (tick_resolve_fails dyndns publicip w st e H).
  do 2 eexists. repeat split.
Qed.

(** [dig] fails while 1.2.3.4 is cached. *)
Lemma resolution_failure_skips_tick_witness :
  exists st' tr,
    loop Sample.dyndns Sample.publicip (Sample.cached "1.2.3.4" "1.2.3.4") Sample.dig_down
      = (Returns st', tr)
    /\ tr = [resolve_event Sample.publicip;
             Println [LStr "Error: failed to get pulic IP:";
                      LErr (ExecError "exit status 9")]]
    /\ Get_calls tr = [] /\ Set_calls tr = []
    /\ registeredIP st' = registeredIP (Sample.cached "1.2.3.4" "1.2.3.4")
    /\ currentIP st' = ""
    /\ err st' = Some (ExecError "exit status 9").
Proof.
  apply (resolution_failure_skips_tick Sample.dyndns Sample.publicip Sample.dig_down
           (Sample.cached "1.2.3.4" "1.2.3.4") "" (ExecError "exit status 9")).
  vm_compute. reflexivity.
Defined.

(** C8.  In a tick whose resolution succeeds with [cur], if the cached
    registered address is [cur] (held from before, or just read from the
    provider into an empty cache), the tick makes no write call. *)
Theorem equal_addresses_no_write dyndns publicip w st cur :
  fst (Resolve publicip w) = Returns (cur, None) ->
  registeredIP st = cur
  \/ (registeredIP st = "" /\ fst (Get dyndns w) = Returns (cur, None)) ->
  exists st' tr,
    loop dyndns publicip st w = (Returns st', tr)
    /\ Set_calls tr = []
    /\ registeredIP st' = cur.
Proof.
  intros HR Hcase. rewrite Resolve_eq in HR. simpl in HR. injection HR as HR.
  pose proof (Resolve_answer_ok _ _ HR) as Hcur.
  destruct Hcase as [Hreg | [Hreg HG]].
  - assert (Hne : registeredIP st <> "") by congruence.
    rewrite (tick_cached dyndns publicip w st cur HR Hne).
    do 2 eexists. repeat split. exact Hreg.
  - rewrite Get_eq in HG. simpl in HG. injection HG as HG.
    rewrite (tick_get_same dyndns publicip w st cur HR Hreg HG).
    do 2 eexists. repeat split.
Qed.

(** Nothing cached; the provider holds the resolved address 1.2.3.4. *)
Lemma equal_addresses_no_write_witness :
  exists st' tr,
    loop Sample.dyndns Sample.publicip initial (Sample.world_of "1.2.3.4" "1.2.3.4" 201)
      = (Returns st', tr)
    /\ Set_calls tr = []
    /\ registeredIP st' = "1.2.3.4".
Proof.
  apply (equal_addresses_no_write Sample.dyndns Sample.publicip
           (Sample.world_of "1.2.3.4" "1.2.3.4" 201) initial "1.2.3.4").
  - vm_compute. reflexivity.
  - right. split; vm_compute; reflexivity.
Defined.

(* ------------------------------------------------------------------ *)
(** ** The record client *)

(** C9.  For every address [ip], [Set] serializes the record with TTL 300
    and the one value [ip]; the other two fields are empty and left out.
    That document is the body of the request [Set] sends, a PUT; it sends
    one, unless [http.NewRequest] rejects the URL, and then it sends none.
    The value in the document is [ip] itself whenever [ip] is valid UTF-8,
    as every string of ASCII characters is; a byte that is not part of
    valid UTF-8 is written as U+FFFD. *)
Theorem Set_payload (l : liveDNSConfig) (ip : string) (w : world) :
  Marshal {| Kind := ""; Name := ""; TTL := 300; Values := Some [ip] |}
  = JObject [("rrset_ttl", JNumber 300);
             ("rrset_values", JArray [JString (json_string ip)])]
  /\ (utf8.ValidString ip = true -> json_string ip = ip)
  /\ (all_chars is_ascii ip = true -> utf8.ValidString ip = true)
  /\ (exists e, fst (Set_ l ip w) = Returns e)
  /\ (forall rq, In (Req rq) (snd (Set_ l ip w)) ->
        Method rq = "PUT"
        /\ ReqBody rq =
           Some (Marshal {| Kind := ""; Name := ""; TTL := 300; Values := Some [ip] |}))
  /\ ((forall d, Do w (mkreq l "PUT" (Some (payload ip))) <> inr (NewRequestError d)) ->
        snd (Set_ l ip w) = [Req (mkreq l "PUT" (Some (payload ip)))])
  /\ ((exists d, Do w (mkreq l "PUT" (Some (payload ip))) = inr (NewRequestError d)) ->
        snd (Set_ l ip w) = []).
Proof.
  rewrite Set_eq. simpl fst. simpl snd.
  split; [reflexivity|].
  split; [apply json_string_valid|].
  split; [apply ascii_ValidString|].
  split; [eauto|].
  split; [|split].
  - intros rq Hin. destruct (req_trace_cases
      (Do w (mkreq l "PUT" (Some (payload ip)))) (mkreq l "PUT" (Some (payload ip))))
      as [E|E]; rewrite E in Hin; simpl in Hin.
    + contradiction.
    + destruct Hin as [Hin|[]]. injection Hin as <-. split; reflexivity.
  - intros Hno. destruct (Do w _) as [res|[d|d]]; try reflexivity.
    contradiction (Hno d). reflexivity.
  - intros [d ->]. reflexivity.
Qed.

(** The address 1.2.3.5, written to a provider that answers "created". *)
Lemma Set_payload_witness :
  json_string "1.2.3.5" = "1.2.3.5"
  /\ snd (Set_ Sample.dyndns "1.2.3.5" (Sample.world_of "1.2.3.5" "1.2.3.4" 201))
     = [Req (mkreq Sample.dyndns "PUT"
               (Some (JObject [("rrset_ttl", JNumber 300);
                               ("rrset_values", JArray [JString "1.2.3.5"])])))].
Proof.
  pose proof (Set_payload Sample.dyndns "1.2.3.5"
                (Sample.world_of "1.2.3.5" "1.2.3.4" 201))
    as (_ & Hvalid & _ & _ & _ & Hsent & _).
  split.
  - apply Hvalid. reflexivity.
  - apply Hsent. intros d. discriminate.
Defined.

(** C6.  In a tick that writes [ip], if the provider answers the write
    with a status other than "created", [Set] fails with the
    unexpected-status error carrying that status, the tick logs it, and
    the cached registered address is the address [A] that was read before
    the write: the failed write has not changed it. *)
Theorem failed_write_keeps_cache dyndns publicip w st st' tr ip res :
  loop dyndns publicip st w = (Returns st', tr) ->
  In (set_event dyndns ip) tr ->
  Do w (mkreq dyndns "PUT" (Some (payload ip))) = inl res ->
  StatusCode res <> StatusCreated ->
  fst (Set_ dyndns ip w)
    = Returns (Some (Errorf "Unexpected Response Status Code [%d]" (StatusCode res)))
  /\ In (Println [LStr "Error: updating DNS record:";
                  LErr (Errorf "Unexpected Response Status Code [%d]" (StatusCode res))]) tr
  /\ Set_calls tr = [set_event dyndns ip]
  /\ exists A,
       fst (Get dyndns w) = Returns (A, None)
       /\ registeredIP st' = A /\ A <> ip.
Proof.
  intros Hloop Hin Hdo Hcode.
  assert (Hset : Set_answer (Do w (mkreq dyndns "PUT" (Some (payload ip))))
                 = Some (Errorf "Unexpected Response Status Code [%d]" (StatusCode res))).
  { rewrite Hdo. simpl. destruct (Z.eqb_spec (StatusCode res) StatusCreated);
      [contradiction | reflexivity]. }
  split; [rewrite Set_eq; simpl; congruence|].
  destruct (tick_cases dyndns publicip w st)
    as [e H | cur H Hreg | cur e H Hreg G | cur H Hreg G | cur r H Hreg G Hne].
  - rewrite (tick_resolve_fails _ _ _ _ e H) in Hloop. injection Hloop as <- <-.
    simpl in Hin. unfold set_event, resolve_event in Hin.
    destruct Hin as [Hin|[Hin|[]]]; discriminate.
  - rewrite (tick_cached _ _ _ _ cur H Hreg) in Hloop. injection Hloop as <- <-.
    simpl in Hin. unfold set_event, resolve_event in Hin.
    destruct Hin as [Hin|[]]; discriminate.
  - rewrite (tick_get_fails _ _ _ _ cur e H Hreg G) in Hloop. injection Hloop as <- <-.
    destruct Hin as [Hin|Hin]; [discriminate|].
    apply in_app_or in Hin as [Hin|[Hin|[]]]; [|discriminate].
    apply In_Get_trace in Hin. discriminate.
  - rewrite (tick_get_same _ _ _ _ cur H Hreg G) in Hloop. injection Hloop as <- <-.
    simpl in Hin. unfold set_event, resolve_event, get_event in Hin.
    destruct Hin as [Hin|[Hin|[]]]; discriminate.
  - rewrite (tick_get_differs _ _ _ _ cur r H Hreg G Hne) in Hloop.
    injection Hloop as <- <-.
    assert (Hacc : accepts cur = true) by (eapply Resolve_answer_accepts; exact H).
    assert (Hip : ip = cur).
    { destruct Hin as [Hin|[Hin|Hin]]; [discriminate | discriminate |].
      apply in_app_or in Hin as [Hin|[Hin|[]]].
      - apply In_Set_trace in Hin. eapply set_event_inj; eauto.
      - unfold set_event in Hin. destruct (written _ _ _); discriminate. }
    subst ip. unfold written, Set_trace. rewrite Hset, Hdo. repeat split.
    + simpl. auto.
    + exists r. rewrite Get_eq. simpl. fold (fetched dyndns w). rewrite G. auto.
Qed.

(** The provider holds 1.2.3.4, 1.2.3.5 is resolved, the write is answered
    with status 500. *)
Lemma failed_write_keeps_cache_witness :
  fst (Set_ Sample.dyndns "1.2.3.5" (Sample.world_of "1.2.3.5" "1.2.3.4" 500))
    = Returns (Some (Errorf "Unexpected Response Status Code [%d]" 500))
  /\ In (Println [LStr "Error: updating DNS record:";
                  LErr (Errorf "Unexpected Response Status Code [%d]" 500)])
        (snd (loop Sample.dyndns Sample.publicip initial
                (Sample.world_of "1.2.3.5" "1.2.3.4" 500)))
  /\ Set_calls (snd (loop Sample.dyndns Sample.publicip initial
                       (Sample.world_of "1.2.3.5" "1.2.3.4" 500)))
     = [set_event Sample.dyndns "1.2.3.5"]
  /\ exists A,
       fst (Get Sample.dyndns (Sample.world_of "1.2.3.5" "1.2.3.4" 500)) = Returns (A, None)
       /\ registeredIP
            {| registeredIP := "1.2.3.4"; currentIP := "1.2.3.5";
               err := Some (Errorf "Unexpected Response Status Code [%d]" 500) |} = A
       /\ A <> "1.2.3.5".
Proof.
  apply (failed_write_keeps_cache Sample.dyndns Sample.publicip
           (Sample.world_of "1.2.3.5" "1.2.3.4" 500) initial
           {| registeredIP := "1.2.3.4"; currentIP := "1.2.3.5";
              err := Some (Errorf "Unexpected Response Status Code [%d]" 500) |}
           _ "1.2.3.5" {| StatusCode := 500; Body := Undecodable "EOF" |}).
  - vm_compute. reflexivity.
  - vm_compute. auto.
  - reflexivity.
  - discriminate.
Defined.

(** C5, as stated, fails: [Get] never looks at the status code.  A
    response with status 500 whose body decodes to a record holding
    1.2.3.4 is read successfully. *)
Lemma Get_succeeds_on_status_500 :
  Do Sample.failing_provider (mkreq Sample.dyndns "GET" None)
  = inl {| StatusCode := 500; Body := Sample.a_record (Some ["1.2.3.4"]) |}
  /\ fst (Get Sample.dyndns Sample.failing_provider) = Returns ("1.2.3.4", None).
Proof. split; vm_compute; reflexivity. Qed.

(** C5, amended.  [Get] sends one GET request, or none when
    [http.NewRequest] rejects the URL, and its answer is decided by the
    reply alone, whatever the status code: the transport error when the
    call fails, the decoding error when the body cannot be decoded,
    "Invalid Record Response" when the values are nil, empty or start with
    an empty string, and otherwise the first value. *)
Theorem Get_decided_by_body (l : liveDNSConfig) (w : world)
    (reply : response + http_failure) :
  Do w (mkreq l "GET" None) = reply ->
  ((forall d, reply <> inr (NewRequestError d)) ->
     snd (Get l w) = [Req (mkreq l "GET" None)])
  /\ ((exists d, reply = inr (NewRequestError d)) -> snd (Get l w) = [])
  /\ (forall failure, reply = inr failure ->
        fst (Get l w) = Returns ("", Some (HTTPError failure)))
  /\ (forall code d, reply = inl {| StatusCode := code; Body := Undecodable d |} ->
        fst (Get l w) = Returns ("", Some (JSONError d)))
  /\ (forall code r,
        reply = inl {| StatusCode := code; Body := Document r |} ->
        Values r = None \/ Values r = Some [] \/ (exists t, Values r = Some ("" :: t)) ->
        fst (Get l w) = Returns ("", Some (errorString "Invalid Record Response")))
  /\ (forall code r v t,
        reply = inl {| StatusCode := code; Body := Document r |} ->
        Values r = Some (v :: t) -> v <> "" ->
        fst (Get l w) = Returns (v, None)).
Proof.
  intros Hdo. rewrite Get_eq, Hdo. simpl.
  split.
  { intros Hno. destruct reply as [res|[d|d]]; try reflexivity.
    contradiction (Hno d). reflexivity. }
  split; [intros [d ->]; reflexivity|].
  split; [intros f ->; reflexivity|].
  split; [intros code d ->; reflexivity|].
  split.
  - intros code r -> [Hv | [Hv | [t Hv]]]; simpl; rewrite Hv; reflexivity.
  - intros code r v t -> Hv Hne. simpl. rewrite Hv.
    destruct (String.eqb_spec v ""); [contradiction | reflexivity].
Qed.

(** The provider answers the read with status 200 and the value 1.2.3.4. *)
Lemma Get_decided_by_body_witness :
  fst (Get Sample.dyndns (Sample.world_of "1.2.3.5" "1.2.3.4" 201))
  = Returns ("1.2.3.4", None).
Proof.
  refine (proj2 (proj2 (proj2 (proj2 (proj2
    (Get_decided_by_body Sample.dyndns (Sample.world_of "1.2.3.5" "1.2.3.4" 201)
       (Sample.holds 200 "1.2.3.4") eq_refl)))))
    200 {| Kind := "A"; Name := "www"; TTL := 300; Values := Some ["1.2.3.4"] |}
    "1.2.3.4" [] eq_refl eq_refl _).
  discriminate.
Defined.

(* ------------------------------------------------------------------ *)
(** ** The public address resolver *)

(** C10.  [Resolve] never panics.  The slice [output[0:len(output)-1]]
    would be out of bounds for an empty output only, and that case has
    returned the error before; for any other output the slice is the
    output without its last byte.  A one-byte output leaves the empty
    string, which is no address. *)
Theorem Resolve_slice_in_bounds (p : publicIPResolver) (w : world)
    (output : list byte) (failure : option string) :
  Output w "dig" (dig_args p) = (output, failure) ->
  (exists r, Resolve p w = (Returns r, [Exec "dig" (dig_args p)]))
  /\ slice [] 0 (blen [] - 1) = None
  /\ (failure = None -> output = [] ->
        fst (Resolve p w) = Returns ("", Some no_ipv4))
  /\ (failure = None -> output <> [] ->
        slice output 0 (blen output - 1) = Some (removelast output)
        /\ blen (removelast output) = blen output - 1
        /\ fst (Resolve p w)
           = Returns (if accepts (string_of_list_byte (removelast output))
                      then (string_of_list_byte (removelast output), None)
                      else ("", Some no_ipv4)))
  /\ (forall b, failure = None -> output = [b] ->
        string_of_list_byte (removelast output) = ""
        /\ fst (Resolve p w) = Returns ("", Some no_ipv4)).
Proof.
  intros Hout. rewrite Resolve_eq, Hout.
  split; [eauto|]. split; [reflexivity|].
  split; [intros -> ->; reflexivity|].
  split.
  - intros -> Hne. destruct output as [|b0 output]; [contradiction|].
    assert (Hlen : blen (b0 :: output) <> 0)
      by (unfold blen; simpl List.length; lia).
    split; [apply slice_all_but_last; assumption|].
    split.
    + unfold blen. rewrite removelast_firstn_len, length_firstn.
      simpl List.length. lia.
    + simpl. destruct (accepts _); reflexivity.
  - intros b -> ->. split; reflexivity.
Qed.

(** [dig] prints a lone newline. *)
Lemma Resolve_slice_in_bounds_witness :
  (exists r, Resolve Sample.publicip (Sample.world_of "" "1.2.3.4" 201)
             = (Returns r, [Exec "dig" (dig_args Sample.publicip)]))
  /\ fst (Resolve Sample.publicip (Sample.world_of "" "1.2.3.4" 201))
     = Returns ("", Some no_ipv4).
Proof.
  pose proof (Resolve_slice_in_bounds Sample.publicip (Sample.world_of "" "1.2.3.4" 201)
                ["010"%byte] None eq_refl) as (H1 & _ & _ & _ & H5).
  split; [exact H1|].
  exact (proj2 (H5 "010"%byte eq_refl eq_refl)).
Defined.

(** C4, as stated, fails: an empty answer and an answer that is no IPv4
    address are reported with one and the same error. *)
Lemma empty_and_invalid_answers_alike :
  fst (Resolve Sample.publicip Sample.dig_silent)
  = Returns ("", Some (errorString "no ipv4 valid address"))
  /\ fst (Resolve Sample.publicip (Sample.world_of "2001:db8::1" "1.2.3.4" 201))
     = Returns ("", Some (errorString "no ipv4 valid address"))
  /\ fst (Resolve Sample.publicip (Sample.world_of "not an address" "1.2.3.4" 201))
     = fst (Resolve Sample.publicip Sample.dig_silent).
Proof. repeat split; vm_compute; reflexivity. Qed.

(** C4, amended.  [Resolve] has two distinguishable failures.  A failed
    query is reported with the error of [os/exec].  An empty answer and an
    answer that [net.ParseIP] and [To4] do not accept as IPv4 are both
    reported with the error "no ipv4 valid address", which is never the
    error of a failed query.  Every failure returns the empty string as
    the address. *)
Theorem Resolve_failures (p : publicIPResolver) (w : world)
    (output : list byte) (failure : option string) :
  Output w "dig" (dig_args p) = (output, failure) ->
  (forall f, failure = Some f ->
     fst (Resolve p w) = Returns ("", Some (ExecError f)))
  /\ (failure = None -> output = [] ->
        fst (Resolve p w) = Returns ("", Some (errorString "no ipv4 valid address")))
  /\ (failure = None -> output <> [] ->
        accepts (string_of_list_byte (removelast output)) = false ->
        fst (Resolve p w) = Returns ("", Some (errorString "no ipv4 valid address")))
  /\ (forall f, ExecError f <> errorString "no ipv4 valid address")
  /\ (forall ip e, fst (Resolve p w) = Returns (ip, Some e) -> ip = "").
Proof.
  intros Hout. rewrite Resolve_eq. simpl fst.
  split; [intros f ->; rewrite Hout; reflexivity|].
  split; [intros -> ->; rewrite Hout; reflexivity|].
  split.
  - intros -> Hne Hacc. rewrite Hout.
    destruct output as [|b0 output]; [contradiction|].
    simpl. simpl in Hacc. rewrite Hacc. reflexivity.
  - split; [discriminate|].
    intros ip e H. injection H as H. eapply Resolve_answer_err; eauto.
Qed.

(** [dig] exits with a failure. *)
Lemma Resolve_failures_witness :
  fst (Resolve Sample.publicip Sample.dig_down)
  = Returns ("", Some (ExecError "exit status 9")).
Proof.
  exact (proj1 (Resolve_failures Sample.publicip Sample.dig_down
                  [] (Some "exit status 9") eq_refl)
           "exit status 9" eq_refl).
Defined.

(** C7.  The test [ip == nil || ip.To4() == nil] is meant to let IPv4
    addresses through only, as its error "no ipv4 valid address" says, but
    [To4] also gives a 4-byte form to an IPv4-mapped IPv6 address.  So the
    IPv6 literal ::ffff:1.2.3.4 is not rejected: [Resolve] returns it as
    the public address, and a tick that finds another address at the
    provider writes it into the A record. *)
Theorem Resolve_accepts_mapped_IPv6_literal :
  net.ParseIP "::ffff:1.2.3.4"
  = Some [0; 0; 0; 0; 0; 0; 0; 0; 0; 0; 255; 255; 1; 2; 3; 4]
  /\ fst (Resolve Sample.publicip (Sample.world_of "::ffff:1.2.3.4" "1.2.3.4" 201))
     = Returns ("::ffff:1.2.3.4", None)
  /\ loop Sample.dyndns Sample.publicip initial
          (Sample.world_of "::ffff:1.2.3.4" "1.2.3.4" 201)
     = (Returns (Sample.cached "1.2.3.4" "::ffff:1.2.3.4"),
        [Exec "dig" (dig_args Sample.publicip);
         Req (mkreq Sample.dyndns "GET" None);
         Req (mkreq Sample.dyndns "PUT"
                (Some (JObject [("rrset_ttl", JNumber 300);
                                ("rrset_values", JArray [JString "::ffff:1.2.3.4"])])));
         Print [LStr "Info: updated Gandi records with IP:";
                LStr "::ffff:1.2.3.4"]]).
Proof. repeat split; vm_compute; reflexivity. Qed.

(* ------------------------------------------------------------------ *)
(** ** Further properties of the record client *)

Lemma Resolve_fst (p : publicIPResolver) (w : world) :
  fst (Resolve p w) = Returns (resolved p w).
Proof. rewrite Resolve_eq. reflexivity. Qed.

Lemma Get_fst (l : liveDNSConfig) (w : world) :
  fst (Get l w) = Returns (fetched l w).
Proof. rewrite Get_eq. reflexivity. Qed.

(** X1.  [Get] never panics on [record.Values[0]].  The empty string is
    its failure value only: with no error the address returned is not
    empty, with an error it is empty.  It sends one GET request without a
    body, unless [http.NewRequest] rejects the URL: then it sends nothing
    and returns that error. *)
Theorem Get_empty_only_on_error (l : liveDNSConfig) (w : world) :
  exists r e,
    fst (Get l w) = Returns (r, e)
    /\ (e = None -> r <> "")
    /\ (e <> None -> r = "")
    /\ ((forall d, Do w (mkreq l "GET" None) <> inr (NewRequestError d)) ->
          snd (Get l w) = [Req (mkreq l "GET" None)])
    /\ (forall d, Do w (mkreq l "GET" None) = inr (NewRequestError d) ->
          snd (Get l w) = [] /\ e = Some (HTTPError (NewRequestError d))).
Proof.
  rewrite Get_eq. destruct (Get_answer _) as [r e] eqn:E.
  exists r, e. split; [reflexivity|]. split; [|split; [|split]].
  - intros ->. eapply Get_answer_ok; eauto.
  - intros Hne. destruct e as [e|]; [|contradiction].
    eapply Get_answer_err; eauto.
  - intros Hno. simpl. destruct (Do w _) as [res|[d|d]]; try reflexivity.
    contradiction (Hno d). reflexivity.
  - intros d Hd. rewrite Hd in *. simpl in *. split; congruence.
Qed.

(** X2.  [Set] succeeds exactly when the provider answers the PUT with
    status 201; any other status, 200 included, and any transport failure
    is an error.  The body of the answer plays no part. *)
Theorem Set_succeeds_iff_created (l : liveDNSConfig) (ip : string) (w : world) :
  fst (Set_ l ip w) = Returns None
  <-> exists res,
        Do w (mkreq l "PUT" (Some (payload ip))) = inl res
        /\ StatusCode res = 201.
Proof.
  rewrite Set_eq. simpl fst. unfold Set_answer, StatusCreated. split.
  - destruct (Do w _) as [res|failure]; [|discriminate].
    destruct (Z.eqb_spec (StatusCode res) 201) as [E|E]; [eauto | discriminate].
  - intros (res & -> & E). rewrite E. reflexivity.
Qed.

(* ------------------------------------------------------------------ *)
(** ** Further properties of one tick *)

Ltac by_paths dyndns publicip w st :=
  let e := fresh "e" in
  let cur := fresh "cur" in
  let r := fresh "r" in
  let H := fresh "HR" in
  let Hreg := fresh "Hreg" in
  let G := fresh "HG" in
  let Hne := fresh "Hne" in
  destruct (tick_cases dyndns publicip w st)
    as [e H | cur H Hreg | cur e H Hreg G | cur H Hreg G | cur r H Hreg G Hne];
  [ rewrite (tick_resolve_fails dyndns publicip w st e H)
  | rewrite (tick_cached dyndns publicip w st cur H Hreg)
  | rewrite (tick_get_fails dyndns publicip w st cur e H Hreg G)
  | rewrite (tick_get_same dyndns publicip w st cur H Hreg G)
  | rewrite (tick_get_differs dyndns publicip w st cur r H Hreg G Hne) ].

(** X3.  A tick never panics, and its trace has one shape: first [dig],
    run once; then at most one GET; then at most one PUT, and a PUT only
    after a GET of the same tick; last at most one log line. *)
Theorem tick_call_bounds dyndns publicip st w :
  exists st' gets sets logs,
    loop dyndns publicip st w
    = (Returns st', (Exec "dig" (dig_args publicip) :: gets ++ sets ++ logs)%list)
    /\ (gets = [] \/ gets = [Req (mkreq dyndns "GET" None)])
    /\ (sets = []
        \/ exists ip, sets = [Req (mkreq dyndns "PUT" (Some (payload ip)))]
                      /\ gets = [Req (mkreq dyndns "GET" None)])
    /\ (logs = [] \/ exists l, logs = [l] /\ is_log l = true).
Proof.
  by_paths dyndns publicip w st.
  - exists {| registeredIP := registeredIP st; currentIP := ""; err := Some e |},
      [], [], [Println [LStr "Error: failed to get pulic IP:"; LErr e]].
    repeat split; eauto.
  - eexists _, [], [], []. repeat split; auto.
  - eexists _, (Get_trace dyndns w), [], _. split; [reflexivity|].
    split; [apply req_trace_cases|]. split; eauto.
  - eexists _, [get_event dyndns], [], []. repeat split; auto.
  - eexists _, [get_event dyndns], (Set_trace dyndns w cur), _.
    split; [reflexivity|]. split; [auto|]. split.
    + destruct (req_trace_cases (Do w (mkreq dyndns "PUT" (Some (payload cur))))
                  (mkreq dyndns "PUT" (Some (payload cur)))) as [E|E];
        unfold Set_trace; rewrite E; eauto.
    + right. eexists. split; [reflexivity|].
      destruct (written dyndns w cur); reflexivity.
Qed.

(** X4.  How a tick changes the captured variables.  [currentIP] becomes
    what [Resolve] returned.  [registeredIP] is left as it was when it was
    not empty or the resolution failed; otherwise it becomes what [Get]
    returned, the address read or, on failure, the empty string.  The
    resolved address is never stored in it. *)
Theorem tick_state_update dyndns publicip st w :
  exists st' tr ip e,
    loop dyndns publicip st w = (Returns st', tr)
    /\ fst (Resolve publicip w) = Returns (ip, e)
    /\ currentIP st' = ip
    /\ ((registeredIP st <> "" \/ e <> None) -> registeredIP st' = registeredIP st)
    /\ (registeredIP st = "" -> e = None ->
          exists r e', fst (Get dyndns w) = Returns (r, e')
                       /\ registeredIP st' = r).
Proof.
  rewrite Resolve_fst, Get_fst.
  by_paths dyndns publicip w st.
  - destruct (resolved publicip w) as [ip e'] eqn:E. simpl in HR. subst e'.
    pose proof (Resolve_answer_err _ _ _ E). subst ip.
    do 4 eexists. split; [reflexivity|]. split; [reflexivity|].
    repeat split. intros _ Hn. discriminate Hn.
  - rewrite HR. do 4 eexists. split; [reflexivity|]. split; [reflexivity|].
    repeat split. intros Hc. contradiction.
  - rewrite HR. do 4 eexists. split; [reflexivity|]. split; [reflexivity|].
    split; [reflexivity|]. split.
    + intros [Hc | Hc]; [contradiction | contradiction Hc; reflexivity].
    + intros _ _. destruct (fetched dyndns w) as [r e'] eqn:E. simpl in HG. subst e'.
      pose proof (Get_answer_err _ _ _ E). subst r. eauto.
  - rewrite HR, HG. do 4 eexists. split; [reflexivity|]. split; [reflexivity|].
    split; [reflexivity|]. split.
    + intros [Hc | Hc]; [contradiction | contradiction Hc; reflexivity].
    + intros _ _. eauto.
  - rewrite HR, HG. do 4 eexists. split; [reflexivity|]. split; [reflexivity|].
    split; [reflexivity|]. split.
    + intros [Hc | Hc]; [contradiction | contradiction Hc; reflexivity].
    + intros _ _. eauto.
Qed.

(** X5.  A tick logs nothing exactly when the resolution succeeds and
    either an address is already cached or the provider holds the resolved
    address.  Every failure and every write leaves one line. *)
Theorem tick_silent_iff dyndns publicip st w :
  filter is_log (snd (loop dyndns publicip st w)) = []
  <-> exists cur,
        fst (Resolve publicip w) = Returns (cur, None)
        /\ (registeredIP st <> ""
            \/ fst (Get dyndns w) = Returns (cur, None)).
Proof.
  rewrite Resolve_fst, Get_fst.
  by_paths dyndns publicip w st; simpl; split.
  - discriminate.
  - intros (c & E & _). injection E as E. rewrite E in HR. discriminate.
  - intros _. exists cur. rewrite HR. auto.
  - reflexivity.
  - rewrite filter_app, log_free_Get_trace. discriminate.
  - intros (c & E & [Hc | E2]); [contradiction|].
    injection E2 as E2. rewrite E2 in HG. discriminate.
  - intros _. exists cur. rewrite HR, HG. auto.
  - reflexivity.
  - rewrite filter_app, log_free_Set_trace.
    destruct (written dyndns w cur); discriminate.
  - intros (c & E & [Hc | E2]); [contradiction|].
    injection E as E. injection E2 as E2. rewrite HR in E. rewrite HG in E2.
    congruence.
Qed.

(** X6.  When nothing is cached and the read fails (transport, decoding,
    or a record without a usable value), the tick is the resolution, the
    read and the log line of the error: it writes nothing and leaves the
    cache empty.  So the next tick whose resolution succeeds reads again:
    it runs [Get] after [dig] and caches what [Get] returns.  The read
    sends a GET request, unless it failed because [http.NewRequest]
    rejected the URL. *)
Theorem failed_read_is_retried dyndns publicip st w cur r e :
  registeredIP st = "" ->
  fst (Resolve publicip w) = Returns (cur, None) ->
  fst (Get dyndns w) = Returns (r, Some e) ->
  exists st',
    loop dyndns publicip st w
    = (Returns st',
       (Exec "dig" (dig_args publicip) :: snd (Get dyndns w) ++
        [Println [LStr "Error: failed to to get current dyndns record:"; LErr e]])%list)
    /\ ((forall d, e <> HTTPError (NewRequestError d)) ->
          snd (Get dyndns w) = [Req (mkreq dyndns "GET" None)])
    /\ ((exists d, e = HTTPError (NewRequestError d)) -> snd (Get dyndns w) = [])
    /\ registeredIP st' = ""
    /\ forall w2 cur2,
         fst (Resolve publicip w2) = Returns (cur2, None) ->
         (exists st2 rest e2,
            loop dyndns publicip st' w2
            = (Returns st2,
               (Exec "dig" (dig_args publicip) :: snd (Get dyndns w2) ++ rest)%list)
            /\ fst (Get dyndns w2) = Returns (registeredIP st2, e2))
         /\ ((forall d, Do w2 (mkreq dyndns "GET" None) <> inr (NewRequestError d)) ->
               Get_calls (snd (loop dyndns publicip st' w2))
               = [Req (mkreq dyndns "GET" None)]).
Proof.
  rewrite Resolve_fst, Get_fst. intros Hreg HR HG.
  injection HR as HR. injection HG as HG.
  assert (G : snd (fetched dyndns w) = Some e) by (rewrite HG; reflexivity).
  rewrite (tick_get_fails dyndns publicip w st cur e HR Hreg G).
  rewrite Get_eq. simpl snd. fold (Get_trace dyndns w).
  eexists. split; [reflexivity|].
  split; [|split; [|split; [reflexivity|]]].
  - intros Hno. unfold Get_trace, fetched in *.
    destruct (Do w (mkreq dyndns "GET" None)) as [res|[d|d]]; try reflexivity.
    simpl in HG. injection HG as _ HG. contradiction (Hno d). congruence.
  - intros [d ->]. unfold Get_trace, fetched in *.
    destruct (Do w (mkreq dyndns "GET" None)) as [res|[d'|d']]; [| reflexivity |].
    + simpl in HG. destruct (Body res) as [?|rec]; [discriminate|].
      destruct (Values rec) as [[|v vs]|]; try discriminate.
      destruct (String.eqb v ""); discriminate.
    + discriminate.
  - intros w2 cur2 HR2. rewrite Resolve_fst in HR2. injection HR2 as HR2.
    set (st' := {| registeredIP := ""; currentIP := cur; err := Some e |}).
    rewrite Get_fst.
    destruct (tick_cases dyndns publicip w2 st')
      as [e2 H | c2 H Hreg2 | c2 e2 H Hreg2 G2 | c2 H Hreg2 G2 | c2 r2 H Hreg2 G2 Hne].
    + rewrite HR2 in H. discriminate.
    + contradiction Hreg2. reflexivity.
    + rewrite (tick_get_fails dyndns publicip w2 st' c2 e2 H Hreg2 G2).
      rewrite Get_eq. simpl snd. fold (Get_trace dyndns w2). split.
      * do 3 eexists. split; [reflexivity|]. simpl.
        destruct (fetched dyndns w2) as [r2 e2'] eqn:E. simpl in G2. subst e2'.
        pose proof (Get_answer_err _ _ _ E). subst r2. reflexivity.
      * intros Hno. unfold Get_calls. simpl. rewrite filter_app.
        fold (Get_calls (Get_trace dyndns w2)). rewrite Get_calls_Get_trace.
        unfold Get_trace.
        destruct (Do w2 (mkreq dyndns "GET" None)) as [res|[d|d]]; try reflexivity.
        contradiction (Hno d). reflexivity.
    + rewrite (tick_get_same dyndns publicip w2 st' c2 H Hreg2 G2).
      rewrite Get_eq. simpl snd.
      rewrite (Get_answer_ok_trace _ c2 _ G2). split.
      * exists {| registeredIP := c2; currentIP := c2; err := None |}, [], None.
        split; [reflexivity|]. simpl. rewrite G2. reflexivity.
      * reflexivity.
    + rewrite (tick_get_differs dyndns publicip w2 st' c2 r2 H Hreg2 G2 Hne).
      rewrite Get_eq. simpl snd.
      rewrite (Get_answer_ok_trace _ r2 _ G2). split.
      * do 3 eexists. split; [reflexivity|]. simpl. rewrite G2. reflexivity.
      * intros _. unfold Get_calls. simpl. rewrite filter_app.
        fold (Get_calls (Set_trace dyndns w2 c2)). rewrite Get_calls_Set_trace.
        destruct (written dyndns w2 c2); reflexivity.
Qed.

(** Nothing cached, [dig] prints 1.2.3.5, the provider's record has an
    empty value list. *)
Lemma failed_read_is_retried_witness :
  exists st',
    loop Sample.dyndns Sample.publicip initial Sample.empty_record
    = (Returns st',
       (Exec "dig" (dig_args Sample.publicip)
        :: snd (Get Sample.dyndns Sample.empty_record) ++
        [Println [LStr "Error: failed to to get current dyndns record:";
                  LErr (errorString "Invalid Record Response")]])%list)
    /\ snd (Get Sample.dyndns Sample.empty_record)
       = [Req (mkreq Sample.dyndns "GET" None)]
    /\ registeredIP st' = "".
Proof.
  destruct (failed_read_is_retried Sample.dyndns Sample.publicip initial
              Sample.empty_record "1.2.3.5" ""
              (errorString "Invalid Record Response"))
    as (st' & E & Hsent & _ & Hreg & _).
  - reflexivity.
  - vm_compute. reflexivity.
  - vm_compute. reflexivity.
  - exists st'. split; [exact E|]. split; [|exact Hreg].
    apply Hsent. intros d. discriminate.
Defined.

(** X7.  The one tick that writes.  Nothing cached, [cur] resolved, the
    provider holds another address [r], and the PUT is answered "created":
    the tick reads, writes [cur], logs the update, and ends without error
    with [r] cached. *)
Theorem first_sync_writes_once dyndns publicip st w cur r res :
  registeredIP st = "" ->
  fst (Resolve publicip w) = Returns (cur, None) ->
  fst (Get dyndns w) = Returns (r, None) ->
  r <> cur ->
  Do w (mkreq dyndns "PUT" (Some (payload cur))) = inl res ->
  StatusCode res = 201 ->
  loop dyndns publicip st w
  = (Returns {| registeredIP := r; currentIP := cur; err := None |},
     [Exec "dig" (dig_args publicip);
      Req (mkreq dyndns "GET" None);
      Req (mkreq dyndns "PUT" (Some (payload cur)));
      Print [LStr "Info: updated Gandi records with IP:"; LStr cur]]).
Proof.
  rewrite Resolve_fst, Get_fst. intros Hreg HR HG Hne Hdo Hcode.
  injection HR as HR. injection HG as HG.
  rewrite (tick_get_differs dyndns publicip w st cur r HR Hreg HG Hne).
  unfold written, Set_trace. rewrite Hdo. simpl. unfold StatusCreated.
  rewrite Hcode. reflexivity.
Qed.

(** Nothing cached, the provider holds 1.2.3.4, [dig] prints 1.2.3.5. *)
Lemma first_sync_writes_once_witness :
  loop Sample.dyndns Sample.publicip initial (Sample.world_of "1.2.3.5" "1.2.3.4" 201)
  = (Returns {| registeredIP := "1.2.3.4"; currentIP := "1.2.3.5"; err := None |},
     [Exec "dig" (dig_args Sample.publicip);
      Req (mkreq Sample.dyndns "GET" None);
      Req (mkreq Sample.dyndns "PUT" (Some (payload "1.2.3.5")));
      Print [LStr "Info: updated Gandi records with IP:"; LStr "1.2.3.5"]]).
Proof.
  apply (first_sync_writes_once Sample.dyndns Sample.publicip initial
           (Sample.world_of "1.2.3.5" "1.2.3.4" 201) "1.2.3.5" "1.2.3.4"
           {| StatusCode := 201; Body := Undecodable "EOF" |}).
  - reflexivity.
  - vm_compute. reflexivity.
  - vm_compute. reflexivity.
  - discriminate.
  - reflexivity.
  - reflexivity.
Defined.

(* ------------------------------------------------------------------ *)
(** ** Further properties of runs *)

Lemma run_cons dyndns publicip w ws st st1 tr1 :
  loop dyndns publicip st w = (Returns st1, tr1) ->
  run dyndns publicip (w :: ws) st
  = (fst (run dyndns publicip ws st1), (tr1 ++ snd (run dyndns publicip ws st1))%list).
Proof.
  intros E. simpl. rewrite E.
  destruct (run dyndns publicip ws st1). reflexivity.
Qed.

Lemma run_returns dyndns publicip ws :
  forall st, exists st', fst (run dyndns publicip ws st) = Returns st'.
Proof.
  induction ws as [|w ws IH]; intros st; [simpl; eauto|].
  destruct (loop_returns dyndns publicip st w) as (st1 & tr1 & E).
  rewrite (run_cons _ _ _ _ _ _ _ E). simpl. apply IH.
Qed.

(** A property of events that every tick keeps is kept by every run. *)
Lemma run_Forall dyndns publicip (P : event -> Prop) :
  (forall st w, Forall P (snd (loop dyndns publicip st w))) ->
  forall ws st, Forall P (snd (run dyndns publicip ws st)).
Proof.
  intros Htick. induction ws as [|w ws IH]; intros st; [constructor|].
  destruct (loop_returns dyndns publicip st w) as (st1 & tr1 & E).
  rewrite (run_cons _ _ _ _ _ _ _ E). simpl.
  apply Forall_app. split; [|apply IH].
  specialize (Htick st w). rewrite E in Htick. exact Htick.
Qed.

Lemma Get_trace_ok dyndns w : Forall (request_ok dyndns) (Get_trace dyndns w).
Proof.
  unfold Get_trace. destruct (Do w _) as [res|[d|d]]; simpl;
    repeat constructor; simpl; auto.
Qed.

Lemma Set_trace_ok dyndns w ip :
  accepts ip = true -> Forall (request_ok dyndns) (Set_trace dyndns w ip).
Proof.
  intros H. unfold Set_trace. destruct (Do w _) as [res|[d|d]]; simpl;
    try apply Forall_nil; (apply Forall_cons; [|apply Forall_nil]);
    simpl; right; eauto.
Qed.

Lemma tick_requests_ok dyndns publicip st w :
  Forall (request_ok dyndns) (snd (loop dyndns publicip st w)).
Proof.
  by_paths dyndns publicip w st; simpl.
  - repeat (apply Forall_cons; [exact I|]). apply Forall_nil.
  - repeat (apply Forall_cons; [exact I|]). apply Forall_nil.
  - apply Forall_cons; [exact I|]. apply Forall_app. split; [apply Get_trace_ok|].
    apply Forall_cons; [exact I | apply Forall_nil].
  - apply Forall_cons; [exact I|]. apply Forall_cons; [simpl; auto | apply Forall_nil].
  - apply Forall_cons; [exact I|]. apply Forall_cons; [simpl; auto|].
    apply Forall_app. split.
    + apply Set_trace_ok. eapply Resolve_answer_accepts. exact HR.
    + apply Forall_cons; [|apply Forall_nil].
      destruct (written dyndns w cur); exact I.
Qed.

(** A tick writes at most once, and after a write an address is cached. *)
Lemma tick_writes dyndns publicip st w :
  exists st' tr,
    loop dyndns publicip st w = (Returns st', tr)
    /\ (List.length (Set_calls tr) <= 1)%nat
    /\ (Set_calls tr <> [] -> registeredIP st' <> "").
Proof.
  by_paths dyndns publicip w st; do 2 eexists; (split; [reflexivity|]).
  - split; [simpl; lia | intros Hc; contradiction Hc; reflexivity].
  - split; [simpl; lia | intros Hc; contradiction Hc; reflexivity].
  - unfold Set_calls. simpl. rewrite filter_app.
    fold (Set_calls (Get_trace dyndns w)). rewrite Set_calls_Get_trace.
    split; [simpl; lia | intros Hc; contradiction Hc; reflexivity].
  - split; [simpl; lia | intros Hc; contradiction Hc; reflexivity].
  - unfold Set_calls. simpl. rewrite filter_app.
    fold (Set_calls (Set_trace dyndns w cur)). rewrite Set_calls_Set_trace.
    split.
    + rewrite length_app. pose proof (Set_trace_length dyndns w cur).
      destruct (written dyndns w cur); simpl; lia.
    + intros _. eapply Get_answer_ok. exact HG.
Qed.

(** X8.  Whatever the state and however many ticks, a run never panics
    and writes to the provider at most once in all; with an address cached
    at the start it never writes. *)
Theorem run_writes_at_most_once dyndns publicip ws :
  forall st,
  exists st' tr,
    run dyndns publicip ws st = (Returns st', tr)
    /\ (List.length (Set_calls tr) <= 1)%nat
    /\ (registeredIP st <> "" -> Set_calls tr = []).
Proof.
  induction ws as [|w ws IH]; intros st.
  - simpl. do 2 eexists. repeat split. simpl. lia.
  - destruct (String.eqb_spec (registeredIP st) "") as [Hreg|Hreg].
    + destruct (tick_writes dyndns publicip st w) as (st1 & tr1 & E1 & L1 & C1).
      rewrite (run_cons _ _ _ _ _ _ _ E1).
      destruct (IH st1) as (st' & tr & E2 & L2 & N2).
      rewrite E2. do 2 eexists. split; [reflexivity|]. simpl.
      split; [|contradiction].
      unfold Set_calls in *. rewrite filter_app, length_app.
      destruct (filter is_Set_call tr1) as [|x l] eqn:F; [simpl; lia|].
      rewrite N2 by (apply C1; discriminate). simpl in *. lia.
    + destruct (run_with_cache dyndns publicip (w :: ws) st Hreg)
        as (st' & tr & E & _ & _ & S).
      rewrite E. do 2 eexists. split; [reflexivity|].
      rewrite S. simpl. split; [lia | reflexivity].
Qed.

(** X9.  Every request of a run goes to the one URL built from the zone
    and the record name, with the API key and the two JSON headers; it is
    a GET without a body or a PUT. *)
Theorem run_requests_target_record dyndns publicip ws st r :
  In (Req r) (snd (run dyndns publicip ws st)) ->
  URL r = (baseURL ++ "/" ++ Zone dyndns ++ "/records/" ++ Record_ dyndns ++ "/A")%string
  /\ Header r = [("X-Api-Key", Key dyndns);
                 ("Content-Type", "application/json");
                 ("Accept", "application/json")]
  /\ ((Method r = "GET" /\ ReqBody r = None) \/ Method r = "PUT").
Proof.
  intros Hin.
  pose proof (run_Forall dyndns publicip (request_ok dyndns)
                (tick_requests_ok dyndns publicip) ws st) as HF.
  rewrite Forall_forall in HF. specialize (HF _ Hin). simpl in HF.
  destruct HF as [-> | (ip & _ & ->)]; simpl; auto.
Qed.

(** Two ticks: the first reads and writes, the second only resolves. *)
Lemma run_requests_target_record_witness :
  URL (mkreq Sample.dyndns "PUT" (Some (payload "1.2.3.5")))
  = "https://dns.api.gandi.net/api/v5/zones/zone-uuid/records/www/A"
  /\ Header (mkreq Sample.dyndns "PUT" (Some (payload "1.2.3.5")))
     = [("X-Api-Key", "secret");
        ("Content-Type", "application/json");
        ("Accept", "application/json")]
  /\ ((Method (mkreq Sample.dyndns "PUT" (Some (payload "1.2.3.5"))) = "GET"
       /\ ReqBody (mkreq Sample.dyndns "PUT" (Some (payload "1.2.3.5"))) = None)
      \/ Method (mkreq Sample.dyndns "PUT" (Some (payload "1.2.3.5"))) = "PUT").
Proof.
  apply (run_requests_target_record Sample.dyndns Sample.publicip
           [Sample.world_of "1.2.3.5" "1.2.3.4" 201;
            Sample.world_of "1.2.3.6" "1.2.3.4" 201] initial).
  vm_compute. auto.
Defined.

(** X10.  Every address a run writes to the provider is one that
    [Resolve] has accepted: the body of every PUT is the record with
    TTL 300 and a single value that [net.ParseIP] parses to an address
    with a 4-byte form. *)
Theorem run_writes_validated_address dyndns publicip ws st r :
  In (Req r) (snd (run dyndns publicip ws st)) ->
  Method r = "PUT" ->
  exists ip ip16 ip4,
    ReqBody r = Some (JObject [("rrset_ttl", JNumber 300);
                               ("rrset_values", JArray [JString ip])])
    /\ net.ParseIP ip = Some ip16
    /\ net.To4 ip16 = Some ip4.
Proof.
  intros Hin Hput.
  pose proof (run_Forall dyndns publicip (request_ok dyndns)
                (tick_requests_ok dyndns publicip) ws st) as HF.
  rewrite Forall_forall in HF. specialize (HF _ Hin). simpl in HF.
  destruct HF as [-> | (ip & Hacc & ->)]; [discriminate Hput|].
  pose proof (accepts_ascii ip Hacc) as Hascii.
  unfold accepts in Hacc.
  destruct (net.ParseIP ip) as [ip16|] eqn:E; [|discriminate].
  destruct (net.To4 ip16) as [ip4|] eqn:E4; [|discriminate].
  exists ip, ip16, ip4. split; [|split; auto].
  unfold payload, Marshal. simpl. rewrite (json_string_ascii ip Hascii).
  reflexivity.
Qed.

(** The first tick writes 1.2.3.5. *)
Lemma run_writes_validated_address_witness :
  exists ip ip16 ip4,
    ReqBody (mkreq Sample.dyndns "PUT" (Some (payload "1.2.3.5")))
    = Some (JObject [("rrset_ttl", JNumber 300);
                     ("rrset_values", JArray [JString ip])])
    /\ net.ParseIP ip = Some ip16
    /\ net.To4 ip16 = Some ip4.
Proof.
  apply (run_writes_validated_address Sample.dyndns Sample.publicip
           [Sample.world_of "1.2.3.5" "1.2.3.4" 201] initial).
  - vm_compute. auto.
  - reflexivity.
Defined.

(* ------------------------------------------------------------------ *)
(** ** [main] *)

Lemma tick_call_shape dyndns publicip st w :
  exists st' rest,
    loop dyndns publicip st w = (Returns st', Exec "dig" (dig_args publicip) :: rest).
Proof. by_paths dyndns publicip w st; eauto. Qed.

Lemma main_for_spec dyndns publicip d ws :
  forall st,
  exists st' t,
    main_for dyndns publicip d ws st = (Looping st', t)
    /\ run dyndns publicip ws st = (Returns st', tick_events t)
    /\ sleeps t = repeat d (List.length ws).
Proof.
  induction ws as [|w ws IH]; intros st.
  - simpl. do 2 eexists. repeat split.
  - destruct (loop_returns dyndns publicip st w) as (st1 & tr1 & E).
    destruct (IH st1) as (st' & t & E1 & E2 & E3).
    simpl. rewrite E, E1, E2. do 2 eexists. split; [reflexivity|].
    assert (Ht : forall l rest, tick_events (map InTick l ++ Sleep d :: rest)%list
                                = (l ++ tick_events rest)%list)
      by (induction l as [|x l IHl]; intros; simpl; [|rewrite IHl]; reflexivity).
    assert (Hs : forall (l : trace) rest, sleeps (map InTick l ++ Sleep d :: rest)%list
                                = d :: sleeps rest)
      by (induction l as [|x l IHl]; intros; simpl; [|rewrite IHl]; reflexivity).
    rewrite Ht, Hs, E3. split; reflexivity.
Qed.

(** The trace of the endless loop, tick by tick: the events of a tick,
    then one sleep. *)
Lemma main_for_ticks dyndns publicip d ws :
  forall st,
    snd (main_for dyndns publicip d ws st)
    = flat_map (fun tr => (map InTick tr ++ [Sleep d])%list)
               (tick_traces dyndns publicip ws st)
    /\ List.length (tick_traces dyndns publicip ws st) = List.length ws
    /\ Forall (fun tr => exists rest, tr = Exec "dig" (dig_args publicip) :: rest)
              (tick_traces dyndns publicip ws st).
Proof.
  induction ws as [|w ws IH]; intros st; [repeat split; constructor|].
  destruct (tick_call_shape dyndns publicip st w) as (st1 & rest & E).
  destruct (IH st1) as (H1 & H2 & H3).
  simpl. rewrite E.
  destruct (main_for dyndns publicip d ws st1) as [r t'] eqn:M. simpl in H1.
  simpl. rewrite H1, H2, <- app_assoc. repeat split.
  apply Forall_cons; [eauto | exact H3].
Qed.

(** X11.  Start-up check.  If the API key, the record name or the zone is
    empty, [main] prints the usage message and exits with status 2; no
    tick runs, so nothing is resolved and the provider is never called,
    whatever the world.  With no flag at all this is the case. *)
Theorem main_requires_mandatory_flags (f : flags) (ws : list world) :
  apiKey f = "" \/ recordName f = "" \/ zoneID f = "" ->
  main f ws = (Exited 2, [Stdout "Missing one or more command line options.";
                          PrintDefaults])
  /\ tick_events (snd (main f ws)) = []
  /\ fst (main flag_defaults ws) = Exited 2.
Proof.
  intros H. assert (E : String.eqb (apiKey f) "" || String.eqb (recordName f) ""
                        || String.eqb (zoneID f) "" = true).
  { destruct H as [-> | [-> | ->]]; simpl;
      rewrite ?orb_true_r; reflexivity. }
  unfold main. rewrite E. repeat split.
Qed.

(** Key and record given, zone missing. *)
Lemma main_requires_mandatory_flags_witness :
  main {| apiKey := "secret"; zoneID := ""; recordName := "www";
          refresh := 5 * Minute; resolver := "resolver1.opendns.com";
          hostname := "myip.opendns.com" |}
       [Sample.world_of "1.2.3.4" "1.2.3.4" 201]
  = (Exited 2, [Stdout "Missing one or more command line options."; PrintDefaults]).
Proof.
  apply (main_requires_mandatory_flags
           {| apiKey := "secret"; zoneID := ""; recordName := "www";
              refresh := 5 * Minute; resolver := "resolver1.opendns.com";
              hostname := "myip.opendns.com" |}
           [Sample.world_of "1.2.3.4" "1.2.3.4" 201]).
  right. right. reflexivity.
Defined.

(** X12.  With the three mandatory flags given, [main] never exits and
    never panics: after any number of ticks it is still looping.  Its
    ticks are those of the closure started with empty variables, for the
    configuration taken from the flags.  Its trace is, tick after tick,
    the events of the tick, which begin with [dig], followed by one sleep
    of the refresh interval. *)
Theorem main_loops_forever (f : flags) (ws : list world) :
  apiKey f <> "" -> recordName f <> "" -> zoneID f <> "" ->
  exists st t,
    main f ws = (Looping st, t)
    /\ run {| Key := apiKey f; Zone := zoneID f; Record_ := recordName f |}
           {| Hostname := hostname f; Server := resolver f |} ws initial
       = (Returns st, tick_events t)
    /\ sleeps t = repeat (refresh f) (List.length ws)
    /\ t = flat_map (fun tr => (map InTick tr ++ [Sleep (refresh f)])%list)
             (tick_traces {| Key := apiKey f; Zone := zoneID f; Record_ := recordName f |}
                          {| Hostname := hostname f; Server := resolver f |} ws initial)
    /\ List.length
         (tick_traces {| Key := apiKey f; Zone := zoneID f; Record_ := recordName f |}
                      {| Hostname := hostname f; Server := resolver f |} ws initial)
       = List.length ws
    /\ Forall (fun tr => exists rest,
                 tr = Exec "dig" ["+time=1"; "+short"; hostname f;
                                  ("@" ++ resolver f)%string] :: rest)
         (tick_traces {| Key := apiKey f; Zone := zoneID f; Record_ := recordName f |}
                      {| Hostname := hostname f; Server := resolver f |} ws initial).
Proof.
  intros H1 H2 H3. unfold main.
  destruct (String.eqb_spec (apiKey f) ""); [contradiction|].
  destruct (String.eqb_spec (recordName f) ""); [contradiction|].
  destruct (String.eqb_spec (zoneID f) ""); [contradiction|].
  simpl.
  set (dyndns := {| Key := apiKey f; Zone := zoneID f; Record_ := recordName f |}).
  set (publicip := {| Hostname := hostname f; Server := resolver f |}).
  destruct (main_for_spec dyndns publicip (refresh f) ws initial)
    as (st & t & E1 & E2 & E3).
  destruct (main_for_ticks dyndns publicip (refresh f) ws initial)
    as (T1 & T2 & T3).
  rewrite E1 in T1. simpl in T1.
  exists st, t. repeat split; assumption.
Qed.

(** The default flags with key, zone and record filled in; two ticks. *)
Lemma main_loops_forever_witness :
  exists st t,
    main given_flags [Sample.world_of "1.2.3.5" "1.2.3.4" 201; Sample.dig_down]
    = (Looping st, t)
    /\ run Sample.dyndns Sample.publicip
           [Sample.world_of "1.2.3.5" "1.2.3.4" 201; Sample.dig_down] initial
       = (Returns st, tick_events t)
    /\ sleeps t = [300000000000; 300000000000]
    /\ t = [InTick (Exec "dig" (dig_args Sample.publicip));
            InTick (Req (mkreq Sample.dyndns "GET" None));
            InTick (Req (mkreq Sample.dyndns "PUT" (Some (payload "1.2.3.5"))));
            InTick (Print [LStr "Info: updated Gandi records with IP:"; LStr "1.2.3.5"]);
            Sleep 300000000000;
            InTick (Exec "dig" (dig_args Sample.publicip));
            InTick (Println [LStr "Error: failed to get pulic IP:";
                             LErr (ExecError "exit status 9")]);
            Sleep 300000000000].
Proof.
  destruct (main_loops_forever given_flags
              [Sample.world_of "1.2.3.5" "1.2.3.4" 201; Sample.dig_down])
    as (st & t & E1 & E2 & E3 & E4 & _); try discriminate.
  exists st, t. repeat split; assumption.
Defined.

(* ------------------------------------------------------------------ *)
(** ** The addresses the parser builds *)

Module netbytes.
Import net.

Lemma upd_nat_wf (n : nat) (v : Z) :
  in_byte_range v -> forall l i, wf n l -> wf n (upd_nat i v l).
Proof.
  intros Hv l. revert n. induction l as [|h t IH]; intros n i [Hl Hf]; [destruct i; split; assumption|].
  inversion Hf as [|? ? Hh Ht]; subst. destruct i as [|i]; simpl.
  - split; [reflexivity | constructor; assumption].
  - destruct (IH (List.length t) i) as [Hl' Hf']; [split; auto|].
    split; [simpl; congruence | constructor; assumption].
Qed.

Lemma upd_wf (n : nat) (i v : Z) (l : IP) :
  in_byte_range v -> wf n l -> wf n (upd i v l).
Proof. intros. apply upd_nat_wf; assumption. Qed.

Lemma idx_range (l : IP) (i : Z) : Forall in_byte_range l -> in_byte_range (idx l i).
Proof.
  intros Hf. unfold idx. destruct (nth_in_or_default (Z.to_nat i) l 0) as [Hin | ->].
  - rewrite Forall_forall in Hf. auto.
  - unfold in_byte_range. lia.
Qed.

Lemma byte_of_range (n : Z) : in_byte_range (byte_of n).
Proof. unfold in_byte_range, byte_of. pose proof (Z.mod_pos_bound n 256). lia. Qed.

Lemma parseIPv4_loop_wf (k : nat) :
  forall s p p' s', wf 4 p -> parseIPv4_loop k s p = Some (p', s') -> wf 4 p'.
Proof.
  induction k as [|k IH]; intros s p p' s' Hp H.
  - injection H as <- _. exact Hp.
  - rewrite netfacts.parseIPv4_loop_S in H. cbv zeta in H.
    netchars.head_if H; [discriminate|]. clear E.
    destruct (if 0 <? IPv4len - Z.of_nat (S k)
              then if at_ s 0 =? 46 then Some (drop 1 s) else None
              else Some s) as [s1|]; [|discriminate].
    destruct (dtoi s1) as [[n c] ok].
    netchars.head_if H; [discriminate|]. clear E.
    netchars.head_if H; [discriminate|]. clear E.
    eapply IH; [|exact H]. apply upd_wf; [apply byte_of_range | exact Hp].
Qed.

Lemma wf_zeros4 : wf 4 [0; 0; 0; 0].
Proof.
  split; [reflexivity|]. simpl.
  repeat (apply Forall_cons; [unfold in_byte_range; lia|]). apply Forall_nil.
Qed.

Lemma wf_zeros16 : wf 16 (repeat 0 16).
Proof.
  split; [reflexivity|]. simpl.
  repeat (apply Forall_cons; [unfold in_byte_range; lia|]). apply Forall_nil.
Qed.

Lemma IPv4_wf (a b c d : Z) :
  in_byte_range a -> in_byte_range b -> in_byte_range c -> in_byte_range d ->
  wf 16 (IPv4 a b c d).
Proof.
  intros. split; [reflexivity|]. unfold IPv4, v4InV6Prefix. simpl.
  repeat (apply Forall_cons; [first [assumption | unfold in_byte_range; lia]|]).
  apply Forall_nil.
Qed.

Lemma parseIPv4_wf (s : string) (ip : IP) : parseIPv4 s = Some ip -> wf 16 ip.
Proof.
  unfold parseIPv4. intros H.
  destruct (parseIPv4_loop 4 s [0; 0; 0; 0]) as [[p s']|] eqn:E; [|discriminate].
  netchars.head_if H; [discriminate|]. injection H as <-.
  destruct (parseIPv4_loop_wf _ _ _ _ _ wf_zeros4 E) as [_ Hf].
  apply IPv4_wf; apply idx_range; assumption.
Qed.

Lemma parseIPv6_loop_wf (k : nat) :
  forall s ip e i s' ip' e', wf 16 ip ->
  parseIPv6_loop k s ip e = Some (i, s', ip', e') -> wf 16 ip'.
Proof.
  induction k as [|k IH]; intros s ip e i s' ip' e' Hip H.
  - injection H as _ _ <- _. exact Hip.
  - rewrite netchars.parseIPv6_loop_S in H. cbv zeta in H.
    destruct (xtoi s) as [[n c] ok].
    netchars.head_if H; [discriminate|]. clear E.
    netchars.head_if H; clear E.
    + netchars.head_if H; [discriminate|]. clear E.
      netchars.head_if H; [discriminate|]. clear E.
      destruct (parseIPv4 s) as [ip4|] eqn:P4; [|discriminate].
      destruct (parseIPv4_wf _ _ P4) as [_ Hf4].
      injection H as _ _ <- _.
      repeat (apply upd_wf; [apply idx_range; exact Hf4|]). exact Hip.
    + assert (Hip2 : wf 16 (upd (IPv6len - 2 * Z.of_nat (S k) + 1) (byte_of n)
                             (upd (IPv6len - 2 * Z.of_nat (S k))
                                  (byte_of (Z.shiftr n 8)) ip)))
        by (repeat (apply upd_wf; [apply byte_of_range|]); exact Hip).
      netchars.head_if H; [injection H as _ _ <- _; exact Hip2|]. clear E.
      netchars.head_if H; [discriminate|]. clear E.
      netchars.head_if H; clear E.
      * netchars.head_if H; [discriminate|]. clear E.
        netchars.head_if H; [injection H as _ _ <- _; exact Hip2|].
        eapply IH; eauto.
      * eapply IH; eauto.
Qed.

Lemma shift_loop_wf (cnt : nat) :
  forall j n ip, wf 16 ip -> wf 16 (shift_loop cnt j n ip).
Proof.
  induction cnt as [|cnt IH]; intros j n ip Hip; simpl; [exact Hip|].
  apply IH. apply upd_wf; [|exact Hip]. apply idx_range. apply Hip.
Qed.

Lemma zero_loop_wf (cnt : nat) :
  forall j ip, wf 16 ip -> wf 16 (zero_loop cnt j ip).
Proof.
  induction cnt as [|cnt IH]; intros j ip Hip; simpl; [exact Hip|].
  apply IH. apply upd_wf; [|exact Hip]. unfold in_byte_range. lia.
Qed.

Lemma parseIPv6_wf (s : string) (ip : IP) : parseIPv6 s = Some ip -> wf 16 ip.
Proof.
  unfold parseIPv6. intros H. cbv zeta in H.
  netchars.head_if H; [injection H as <-; exact wf_zeros16|]. clear E.
  destruct (if (len s >=? 2) && (at_ s 0 =? 58) && (at_ s 1 =? 58)
            then (0, drop 2 s) else (-1, s)) as [e0 s0].
  destruct (parseIPv6_loop 8 s0 (repeat 0 16) e0) as [[[[i s'] ip'] e']|] eqn:P;
    [|discriminate].
  pose proof (parseIPv6_loop_wf _ _ _ _ _ _ _ _ wf_zeros16 P) as Hip'.
  netchars.head_if H; [discriminate|]. clear E.
  netchars.head_if H; clear E.
  - netchars.head_if H; [discriminate|]. clear E.
    injection H as <-. apply zero_loop_wf, shift_loop_wf. exact Hip'.
  - netchars.head_if H; [discriminate|]. injection H as <-. exact Hip'.
Qed.

Lemma ParseIP_wf (s : string) (ip : IP) : ParseIP s = Some ip -> wf 16 ip.
Proof.
  unfold ParseIP. generalize s at 1. intros rest.
  induction rest as [|c r IH]; simpl; [discriminate|].
  destruct (code c =? 46); [apply parseIPv4_wf|].
  destruct (code c =? 58); [apply parseIPv6_wf|]. exact IH.
Qed.

(** The 4-byte form of a parsed address: its last four bytes. *)
Lemma To4_wf (ip ip4 : IP) :
  wf 16 ip -> To4 ip = Some ip4 ->
  exists a b c d,
    ip4 = [a; b; c; d]
    /\ in_byte_range a /\ in_byte_range b /\ in_byte_range c /\ in_byte_range d
    /\ ip = IPv4 a b c d.
Proof.
  intros [Hl Hf] H.
  do 16 (destruct ip as [|? ip]; [discriminate Hl|]).
  destruct ip; [|discriminate Hl]. clear Hl.
  unfold To4 in H. simpl List.length in H.
  change (Z.of_nat 16 =? IPv4len) with false in H.
  change (Z.of_nat 16 =? IPv6len) with true in H. cbv iota in H.
  netchars.head_if H; [|discriminate].
  injection H as <-. simpl in E.
  rewrite !andb_true_iff, !Z.eqb_eq in E.
  unfold idx in E. simpl in E.
  destruct E as [[Hz E10] E11].
  repeat match type of Hz with _ /\ _ => destruct Hz as [? Hz] end.
  subst. simpl.
  repeat match goal with H : Forall _ (_ :: _) |- _ => inversion H; clear H; subst end.
  do 4 eexists. repeat split; first [reflexivity | unfold in_byte_range in *; lia].
Qed.

End netbytes.

(* ------------------------------------------------------------------ *)
(** ** Dotted quads are the only colon-free literals *)

Module netcanon.
Import net.

Lemma is_digit_digit (c : ascii) :
  is_digit c = true -> c = digit (code c - 48) /\ 0 <= code c - 48 <= 9.
Proof.
  intros H. split.
  - destruct c as [b0 b1 b2 b3 b4 b5 b6 b7].
    destruct b0, b1, b2, b3, b4, b5, b6, b7; try discriminate H; reflexivity.
  - unfold is_digit in H. apply andb_true_iff in H as [H1 H2].
    apply Z.leb_le in H1. apply Z.leb_le in H2. lia.
Qed.

Lemma code_dot (c : ascii) : code c = 46 -> c = "."%char.
Proof.
  intros H. rewrite <- (ascii_N_embedding c). unfold code in H.
  replace (N_of_ascii c) with 46%N by lia. reflexivity.
Qed.

Lemma in_digits10 (d : Z) : 0 <= d <= 9 -> In d digits10.
Proof.
  intros H. unfold digits10. apply in_map_iff. exists (Z.to_nat d).
  split; [lia|]. apply in_seq. lia.
Qed.

Lemma numerals_1 : forallb (fun d1 => numeral_ok [d1]) digits10 = true.
Proof. vm_compute. reflexivity. Qed.

Lemma numerals_2 :
  forallb (fun d1 => forallb (fun d2 => numeral_ok [d1; d2]) digits10) digits10 = true.
Proof. vm_compute. reflexivity. Qed.

Lemma numerals_3 :
  forallb (fun d1 => forallb (fun d2 => forallb (fun d3 =>
     numeral_ok [d1; d2; d3]) digits10) digits10) digits10 = true.
Proof. vm_compute. reflexivity. Qed.

Lemma numeral_ok_elim (ds : list Z) :
  numeral_ok ds = true ->
  value (numeral ds) 0 <= 255 ->
  (len (numeral ds) >? 1) && (at_ (numeral ds) 0 =? 48) = false ->
  numeral ds = decimal (value (numeral ds) 0) /\ octet (value (numeral ds) 0).
Proof.
  unfold numeral_ok. cbv zeta. intros H Hle Hz.
  apply Z.leb_le in Hle. rewrite Hle, Hz in H. simpl in H.
  apply andb_true_iff in H as [H1 H2].
  apply String.eqb_eq in H1. apply Z.leb_le in H2. apply Z.leb_le in Hle.
  split; [exact H1 | split; assumption].
Qed.

Lemma value_ge (r : string) :
  forall n, all_chars is_digit r = true -> 0 <= n -> n <= value r n.
Proof.
  induction r as [|c r IH]; intros n Hall Hn; simpl; [lia|].
  simpl in Hall. apply andb_true_iff in Hall as [Hc Hr].
  destruct (is_digit_digit c Hc) as [_ Hd].
  specialize (IH (n * 10 + (code c - 48)) Hr). lia.
Qed.

Lemma canonical_numeral (pre : string) :
  all_chars is_digit pre = true -> 1 <= len pre ->
  value pre 0 <= 255 ->
  (len pre >? 1) && (at_ pre 0 =? 48) = false ->
  pre = decimal (value pre 0) /\ octet (value pre 0).
Proof.
  intros Hall Hlen Hle Hz.
  destruct pre as [|c1 pre]; [change (len "") with 0 in Hlen; lia|].
  simpl in Hall. apply andb_true_iff in Hall as [Hc1 Hall].
  destruct (is_digit_digit c1 Hc1) as [E1 R1].
  pose proof (in_digits10 _ R1) as I1.
  destruct pre as [|c2 pre].
  { pose proof numerals_1 as N. rewrite forallb_forall in N.
    specialize (N _ I1). rewrite E1 in Hle, Hz |- *.
    exact (numeral_ok_elim [code c1 - 48] N Hle Hz). }
  simpl in Hall. apply andb_true_iff in Hall as [Hc2 Hall].
  destruct (is_digit_digit c2 Hc2) as [E2 R2].
  pose proof (in_digits10 _ R2) as I2.
  destruct pre as [|c3 pre].
  { pose proof numerals_2 as N. rewrite forallb_forall in N.
    specialize (N _ I1). rewrite forallb_forall in N. specialize (N _ I2).
    rewrite E1, E2 in Hle, Hz |- *.
    exact (numeral_ok_elim [code c1 - 48; code c2 - 48] N Hle Hz). }
  simpl in Hall. apply andb_true_iff in Hall as [Hc3 Hall].
  destruct (is_digit_digit c3 Hc3) as [E3 R3].
  pose proof (in_digits10 _ R3) as I3.
  destruct pre as [|c4 pre].
  { pose proof numerals_3 as N. rewrite forallb_forall in N.
    specialize (N _ I1). rewrite forallb_forall in N. specialize (N _ I2).
    rewrite forallb_forall in N. specialize (N _ I3).
    rewrite E1, E2, E3 in Hle, Hz |- *.
    exact (numeral_ok_elim [code c1 - 48; code c2 - 48; code c3 - 48] N Hle Hz). }
  exfalso.
  simpl in Hall. apply andb_true_iff in Hall as [Hc4 Hall].
  destruct (is_digit_digit c4 Hc4) as [_ R4].
  assert (Hlong : (len (String c1 (String c2 (String c3 (String c4 pre)))) >? 1) = true).
  { rewrite !len_String. pose proof (len_nonneg pre).
    destruct (Z.gtb_spec (1 + (1 + (1 + (1 + len pre)))) 1); [reflexivity | lia]. }
  rewrite Hlong, at_0_String in Hz. simpl in Hz. apply Z.eqb_neq in Hz.
  simpl in Hle.
  match type of Hle with
  | value pre ?n <= _ => pose proof (value_ge pre n Hall)
  end.
  lia.
Qed.

Lemma dtoi_from_digits_split (s : string) :
  forall n i n' c, dtoi_from s n i = (n', c, true) ->
  exists pre rest, s = (pre ++ rest)%string /\ c = i + len pre /\ c <> 0
                   /\ all_chars is_digit pre = true /\ n' = value pre n.
Proof.
  induction s as [|a s IH]; intros n i n' c H; simpl in H.
  - destruct (Z.eqb_spec i 0); [discriminate|]. injection H as <- <-.
    exists EmptyString, EmptyString. change (len "") with 0.
    repeat split; [lia | assumption].
  - destruct (is_digit a) eqn:D.
    + destruct (n * 10 + (code a - 48) >=? big); [discriminate|].
      destruct (IH _ _ _ _ H) as (pre & rest & -> & -> & Hc & Hall & ->).
      exists (String a pre), rest. rewrite len_String.
      simpl all_chars. simpl value. rewrite D, Hall.
      repeat split; [lia | assumption].
    + destruct (Z.eqb_spec i 0); [discriminate|]. injection H as <- <-.
      exists EmptyString, (String a s). change (len "") with 0.
      repeat split; [lia | assumption].
Qed.

(** One iteration of [parseIPv4]'s loop reads one octet in its shortest
    form, after a dot unless it is the first. *)
Lemma parseIPv4_loop_step (k : nat) (s : string) (p p' : list Z) (s' : string) :
  parseIPv4_loop (S k) s p = Some (p', s') ->
  exists n rest,
    octet n
    /\ s = ((if (0 <? IPv4len - Z.of_nat (S k))%Z then "." else "") ++ decimal n ++ rest)%string
    /\ parseIPv4_loop k rest (upd (IPv4len - Z.of_nat (S k)) n p) = Some (p', s').
Proof.
  intros H. rewrite netfacts.parseIPv4_loop_S in H. cbv zeta in H.
  netchars.head_if H; [discriminate|]. clear E.
  assert (exists s1, s = ((if (0 <? IPv4len - Z.of_nat (S k))%Z then "." else "") ++ s1)%string
            /\ (let '(n, c, ok) := dtoi s1 in
                if negb ok || (n >? 255) then None
                else if (c >? 1) && (at_ s1 0 =? 48) then None
                else parseIPv4_loop k (drop c s1)
                       (upd (IPv4len - Z.of_nat (S k)) (byte_of n) p))
               = Some (p', s')) as (s1 & -> & H1).
  { destruct (0 <? IPv4len - Z.of_nat (S k)).
    - destruct (Z.eqb_spec (at_ s 0) 46) as [E|]; [|discriminate].
      destruct (netchars.at_0_shape s 46 E) as (c & r & -> & Hc & Hd); [lia|].
      rewrite Hd in H. apply code_dot in Hc. subst c. exists r. split; [reflexivity|exact H].
    - exists s. split; [reflexivity | exact H]. }
  clear H. destruct (dtoi s1) as [[n c] ok] eqn:D.
  destruct ok; [|discriminate].
  destruct (Z.gtb_spec n 255) as [|Hle]; [discriminate|]. simpl negb in H1. simpl orb in H1.
  unfold dtoi in D.
  destruct (dtoi_from_digits_split _ _ _ _ _ D)
    as (pre & rest & -> & -> & Hc & Hall & ->).
  rewrite Z.add_0_l in *. pose proof (len_nonneg pre) as Hpos.
  rewrite netfacts.at_0_app in H1 by lia.
  netchars.head_if H1; [discriminate|].
  destruct (canonical_numeral pre Hall) as [Epre Hoct]; [lia | assumption | assumption |].
  rewrite drop_len_app in H1.
  exists (value pre 0), rest. split; [exact Hoct|].
  split; [rewrite <- Epre; reflexivity|].
  replace (byte_of (value pre 0)) with (value pre 0) in H1; [exact H1|].
  unfold byte_of. destruct Hoct. rewrite Z.mod_small; lia.
Qed.

Lemma parseIPv4_canonical (s : string) (ip : IP) :
  parseIPv4 s = Some ip ->
  exists a b c d,
    octet a /\ octet b /\ octet c /\ octet d
    /\ s = dotted a b c d /\ ip = IPv4 a b c d.
Proof.
  unfold parseIPv4. intros H.
  destruct (parseIPv4_loop 4 s [0; 0; 0; 0]) as [[p s']|] eqn:E; [|discriminate].
  destruct (Z.eqb_spec (len s') 0) as [L|]; [|discriminate].
  apply netchars.len_0 in L. subst s'. injection H as <-.
  destruct (parseIPv4_loop_step _ _ _ _ _ E) as (a & r1 & Ha & -> & E1).
  destruct (parseIPv4_loop_step _ _ _ _ _ E1) as (b & r2 & Hb & -> & E2).
  destruct (parseIPv4_loop_step _ _ _ _ _ E2) as (c & r3 & Hc & -> & E3).
  destruct (parseIPv4_loop_step _ _ _ _ _ E3) as (d & r4 & Hd & -> & E4).
  simpl in E4. injection E4 as <- ->.
  exists a, b, c, d. repeat split; try apply Ha; try apply Hb; try apply Hc; try apply Hd.
  unfold dotted. simpl. rewrite netfacts.app_empty. reflexivity.
Qed.

Lemma ParseIP_scan_no_colon (rest whole : string) (ip : IP) :
  ParseIP_scan rest whole = Some ip ->
  all_chars not_colon rest = true ->
  parseIPv4 whole = Some ip.
Proof.
  induction rest as [|c r IH]; simpl; [discriminate|].
  unfold not_colon at 1.
  destruct (code c =? 46); [auto|].
  destruct (code c =? 58); [discriminate|]. simpl. exact IH.
Qed.

End netcanon.

(* ------------------------------------------------------------------ *)
(** ** Further properties of the public address resolver *)

Lemma Resolve_success (p : publicIPResolver) (w : world) (ip : string) :
  fst (Resolve p w) = Returns (ip, None) -> accepts ip = true.
Proof.
  rewrite Resolve_fst. intros H. injection H as H.
  eapply Resolve_answer_accepts. exact H.
Qed.

(** X13.  An address that [Resolve] returns without error is not empty
    and consists of hexadecimal digits, dots and colons only: it holds no
    newline, space or quote.  So an answer of several lines, or one with
    any other byte before its last, is never returned. *)
Theorem Resolve_returns_literal_characters (p : publicIPResolver) (w : world)
    (ip : string) :
  fst (Resolve p w) = Returns (ip, None) ->
  ip <> "" /\ all_chars ip_char ip = true.
Proof.
  intros H. apply Resolve_success in H. split.
  - apply accepts_nonempty. exact H.
  - unfold accepts in H. destruct (net.ParseIP ip) as [ip16|] eqn:E; [|discriminate].
    eapply netchars.ParseIP_chars. exact E.
Qed.

(** [dig] prints 192.168.0.254. *)
Lemma Resolve_returns_literal_characters_witness :
  "192.168.0.254" <> "" /\ all_chars ip_char "192.168.0.254" = true.
Proof.
  apply (Resolve_returns_literal_characters Sample.publicip
           (Sample.world_of "192.168.0.254" "1.2.3.4" 201) "192.168.0.254").
  vm_compute. reflexivity.
Defined.

(** X14.  An address that [Resolve] returns without error denotes four
    octets: [net.ParseIP] parses it to the 16-byte form of some a.b.c.d
    with each of a, b, c, d in 0..255, whose 4-byte form is a, b, c, d. *)
Theorem Resolve_returns_four_octets (p : publicIPResolver) (w : world)
    (ip : string) :
  fst (Resolve p w) = Returns (ip, None) ->
  exists a b c d,
    in_byte_range a /\ in_byte_range b /\ in_byte_range c /\ in_byte_range d
    /\ net.ParseIP ip = Some (net.IPv4 a b c d)
    /\ net.To4 (net.IPv4 a b c d) = Some [a; b; c; d].
Proof.
  intros H. apply Resolve_success in H. unfold accepts in H.
  destruct (net.ParseIP ip) as [ip16|] eqn:E; [|discriminate].
  destruct (net.To4 ip16) as [ip4|] eqn:E4; [|discriminate].
  destruct (netbytes.To4_wf ip16 ip4 (netbytes.ParseIP_wf _ _ E) E4)
    as (a & b & c & d & -> & Ha & Hb & Hc & Hd & ->).
  exists a, b, c, d. repeat split; try apply Ha; try apply Hb; try apply Hc;
    try apply Hd.
Qed.

(** [dig] prints the IPv4-mapped literal ::ffff:10.0.0.1. *)
Lemma Resolve_returns_four_octets_witness :
  exists a b c d,
    in_byte_range a /\ in_byte_range b /\ in_byte_range c /\ in_byte_range d
    /\ net.ParseIP "::ffff:10.0.0.1" = Some (net.IPv4 a b c d)
    /\ net.To4 (net.IPv4 a b c d) = Some [a; b; c; d].
Proof.
  apply (Resolve_returns_four_octets Sample.publicip
           (Sample.world_of "::ffff:10.0.0.1" "1.2.3.4" 201) "::ffff:10.0.0.1").
  vm_compute. reflexivity.
Defined.

(** X15.  When [dig] prints a line [s] without a colon, [Resolve] returns
    [s] exactly when [s] is a dotted quad: four octets 0..255 in decimal
    without leading zeros, joined by dots, and nothing else. *)
Theorem Resolve_colon_free_iff_dotted_quad (p : publicIPResolver) (w : world)
    (s : string) :
  Output w "dig" (dig_args p) = (Sample.line s, None) ->
  all_chars not_colon s = true ->
  fst (Resolve p w) = Returns (s, None)
  <-> exists a b c d,
        octet a /\ octet b /\ octet c /\ octet d /\ s = dotted a b c d.
Proof.
  intros Hout Hcolon. split.
  - intros H. apply Resolve_success in H. unfold accepts in H.
    destruct (net.ParseIP s) as [ip16|] eqn:E; [|discriminate].
    unfold net.ParseIP in E.
    pose proof (netcanon.ParseIP_scan_no_colon _ _ _ E Hcolon) as E4.
    destruct (netcanon.parseIPv4_canonical _ _ E4)
      as (a & b & c & d & Ha & Hb & Hc & Hd & Hs & _).
    exists a, b, c, d. auto.
  - intros (a & b & c & d & Ha & Hb & Hc & Hd & ->).
    rewrite Resolve_eq, Hout. unfold Resolve_answer, Sample.line. simpl fst.
    destruct (list_byte_of_string (dotted a b c d) ++ ["010"%byte])%list eqn:E.
    + destruct (list_byte_of_string (dotted a b c d)); discriminate.
    + rewrite <- E, bytes_roundtrip. unfold accepts.
      rewrite (netfacts.ParseIP_dotted a b c d) by assumption.
      rewrite netfacts.To4_IPv4. reflexivity.
Qed.

(** [dig] prints 8.8.4.4. *)
Lemma Resolve_colon_free_iff_dotted_quad_witness :
  fst (Resolve Sample.publicip (Sample.world_of "8.8.4.4" "1.2.3.4" 201))
  = Returns ("8.8.4.4", None)
  <-> exists a b c d,
        octet a /\ octet b /\ octet c /\ octet d /\ "8.8.4.4" = dotted a b c d.
Proof.
  apply (Resolve_colon_free_iff_dotted_quad Sample.publicip
           (Sample.world_of "8.8.4.4" "1.2.3.4" 201) "8.8.4.4");
    reflexivity.
Defined.
